(** * The knowledge-graph store of [src/knowledge-graph.ts]

    A shallow embedding of [KnowledgeGraphManager]: the memory file, the
    zod schemas, [loadGraph] / [saveGraph] and the read and mutation
    methods built on them, followed by the properties of the store.

    Conventions.  A method is a function from the state of the memory file
    to what the method returns or throws and the state of the file
    afterwards.  JavaScript objects are finite maps from property names to
    values; an object of a TypeScript type is given by the properties the
    type names and a map of its other own properties.  The file is a list
    of lines, each seen through the library calls that read it.  The
    lower-casing of strings is the runtime's and a parameter of the model. *)

From Stdlib Require Import ZArith List Bool Ascii String Lia.
From stdpp Require Import base strings list gmap.

Set Warnings "-register-all".
Local Open Scope string_scope.
Local Open Scope list_scope.

(** ** JavaScript values and errors *)

(** The values [JSON.parse] can return.  An object is a finite map from its
    own property names to values. *)
Inductive value : Type :=
| VNull
| VBool (b : bool)
| VNum (n : Z)
| VStr (s : string)
| VArr (l : list value)
| VObj (o : gmap string value).

(** What a method can throw. *)
Inductive error : Type :=
| ZodError                   (* a schema's [parse] rejected its argument *)
| SyntaxError                (* [JSON.parse] on text that is not JSON *)
| TypeError                  (* a property read on [null] *)
| Error_ (message : string). (* [new Error(message)] *)

Inductive result (A : Type) : Type :=
| Ok (a : A)
| Throw (e : error).
Arguments Ok {A} a.
Arguments Throw {A} e.

Definition result_bind {A B} (r : result A) (k : A -> result B) : result B :=
  match r with
  | Ok a => k a
  | Throw e => Throw e
  end.

(** ** Entities, relations, graphs *)

(** An object of type [Entity]: the three properties the schema names, and
    whatever other own properties the object carries ([entity_extra]).
    TypeScript's structural typing and [z.object]'s default mode both admit
    such properties.  A key of [entity_extra] that repeats a schema property
    is shadowed by it (see [Entity_obj]). *)
Record Entity : Type := {
  name : string;
  entityType : string;
  observations : list string;
  entity_extra : gmap string value }.

Record Relation : Type := {
  from : string;
  to : string;
  relationType : string;
  relation_extra : gmap string value }.

Record KnowledgeGraph : Type := {
  entities : list Entity;
  relations : list Relation }.

Definition empty_graph : KnowledgeGraph := {| entities := []; relations := [] |}.

(** The own properties of an entity and of a relation, as a JS object. *)
Definition Entity_obj (e : Entity) : gmap string value :=
  <["name" := VStr (name e)]>
    (<["entityType" := VStr (entityType e)]>
       (<["observations" := VArr (VStr <$> observations e)]> (entity_extra e))).

Definition Relation_obj (r : Relation) : gmap string value :=
  <["from" := VStr (from r)]>
    (<["to" := VStr (to r)]>
       (<["relationType" := VStr (relationType r)]> (relation_extra r))).

(** ** The zod schemas

    [z.string()] accepts strings only, [z.array(s)] arrays whose every element
    [s] accepts, and [z.object({...})] objects whose listed properties are
    accepted; the object it returns holds the listed properties only. *)

Definition z_string (v : option value) : option string :=
  match v with
  | Some (VStr s) => Some s
  | _ => None
  end.

Definition z_array_string (v : option value) : option (list string) :=
  match v with
  | Some (VArr l) => mapM (fun x => z_string (Some x)) l
  | _ => None
  end.

Definition EntitySchema_parse (v : value) : option Entity :=
  match v with
  | VObj o =>
      match z_string (o !! "name"), z_string (o !! "entityType"),
            z_array_string (o !! "observations") with
      | Some n, Some t, Some obs =>
          Some {| name := n; entityType := t; observations := obs;
                  entity_extra := ∅ |}
      | _, _, _ => None
      end
  | _ => None
  end.

Definition RelationSchema_parse (v : value) : option Relation :=
  match v with
  | VObj o =>
      match z_string (o !! "from"), z_string (o !! "to"),
            z_string (o !! "relationType") with
      | Some f, Some t, Some rt =>
          Some {| from := f; to := t; relationType := rt;
                  relation_extra := ∅ |}
      | _, _, _ => None
      end
  | _ => None
  end.

(** The accumulator of [loadGraph]'s [reduce]: parsed items, not yet
    validated. *)
Record RawGraph : Type := {
  raw_entities : list value;
  raw_relations : list value }.

Definition KnowledgeGraphSchema_parse (g : RawGraph) : option KnowledgeGraph :=
  match mapM EntitySchema_parse (raw_entities g),
        mapM RelationSchema_parse (raw_relations g) with
  | Some es, Some rs => Some {| entities := es; relations := rs |}
  | _, _ => None
  end.

Definition raw_of (g : KnowledgeGraph) : RawGraph :=
  {| raw_entities := (fun e => VObj (Entity_obj e)) <$> entities g;
     raw_relations := (fun r => VObj (Relation_obj r)) <$> relations g |}.

(** ** The memory file

    The file is read through [split("\n")], [trim] and [JSON.parse], and
    written through [JSON.stringify] and [join("\n")].  A line is
    represented by what the first three make of it; [JSON.stringify] of a
    value yields one line that [JSON.parse] maps back to the value. *)
Inductive line : Type :=
| Blank              (* trims to the empty string *)
| Malformed          (* not blank, and not JSON *)
| Json (v : value).  (* the text of the JSON value [v] *)

Definition nonblank (l : line) : bool :=
  match l with
  | Blank => false
  | _ => true
  end.

Definition JSON_parse (l : line) : result value :=
  match l with
  | Json v => Ok v
  | _ => Throw SyntaxError
  end.

Definition JSON_stringify (v : value) : line := Json v.

(** [None]: the file does not exist ([ENOENT]). *)
Definition fs : Type := option (list line).

(** Methods run against the file and either return or throw. *)
Definition M (A : Type) : Type := fs -> result A * fs.

Definition ret {A} (a : A) : M A := fun d => (Ok a, d).
Definition throw {A} (e : error) : M A := fun d => (Throw e, d).
Definition bind {A B} (m : M A) (k : A -> M B) : M B :=
  fun d =>
    match m d with
    | (Ok a, d') => k a d'
    | (Throw e, d') => (Throw e, d')
    end.

Notation "'let*' x ':=' m 'in' k" := (bind m (fun x => k))
  (at level 10, x name, m at level 100, k at level 200, only parsing).

(** [item.type]: a property read, [undefined] ([None]) where the value has
    no such property, a [TypeError] on [null]. *)
Definition get_type (item : value) : result (option value) :=
  match item with
  | VNull => Throw TypeError
  | VObj o => Ok (o !! "type")
  | _ => Ok None
  end.

(** [v === s] for a string literal [s]. *)
Definition is_str (s : string) (v : option value) : bool :=
  match v with
  | Some (VStr s') => String.eqb s' s
  | _ => false
  end.

Definition empty_raw : RawGraph := {| raw_entities := []; raw_relations := [] |}.

(** The callback of [lines.reduce] in [loadGraph]. *)
Definition load_step (graph : result RawGraph) (l : line) : result RawGraph :=
  result_bind graph (fun graph =>
  result_bind (JSON_parse l) (fun item =>
  result_bind (get_type item) (fun ty =>
    let graph :=
      if is_str "entity" ty
      then {| raw_entities := raw_entities graph ++ [item];
              raw_relations := raw_relations graph |}
      else graph in
    let graph :=
      if is_str "relation" ty
      then {| raw_entities := raw_entities graph;
              raw_relations := raw_relations graph ++ [item] |}
      else graph in
    Ok graph))).

Definition load_lines (data : list line) : result KnowledgeGraph :=
  let lines := List.filter nonblank data in
  result_bind (fold_left load_step lines (Ok empty_raw)) (fun graph =>
    match KnowledgeGraphSchema_parse graph with
    | Some g => Ok g
    | None => Throw ZodError
    end).

Definition loadGraph : M KnowledgeGraph :=
  fun d =>
    match d with
    | None => (Ok empty_graph, d)
    | Some data => (load_lines data, d)
    end.

(** [{ type: tag, ...obj }]: the properties of [obj] are copied over the
    literal's, so an own [type] of [obj] replaces the tag. *)
Definition tagged (tag : string) (obj : gmap string value) : gmap string value :=
  obj ∪ {[ "type" := VStr tag ]}.

Definition entity_record (e : Entity) : value :=
  VObj (tagged "entity" (Entity_obj e)).

Definition relation_record (r : Relation) : value :=
  VObj (tagged "relation" (Relation_obj r)).

Definition graph_lines (graph : KnowledgeGraph) : list line :=
  ((fun e => JSON_stringify (entity_record e)) <$> entities graph)
  ++ ((fun r => JSON_stringify (relation_record r)) <$> relations graph).

Definition saveGraph (graph : KnowledgeGraph) : M unit :=
  fun d =>
    match KnowledgeGraphSchema_parse (raw_of graph) with
    | None => (Throw ZodError, d)
    | Some _ => (Ok tt, Some (graph_lines graph))
    end.

Definition readGraph : M KnowledgeGraph := loadGraph.

(** ** Strings and arrays *)

Definition lower_ascii (c : ascii) : ascii :=
  let n := nat_of_ascii c in
  if (65 <=? n)%nat && (n <=? 90)%nat then ascii_of_nat (n + 32) else c.

(** Lower-casing of the letters [A] to [Z]; every other character stays. *)
Fixpoint ascii_lower (s : string) : string :=
  match s with
  | EmptyString => EmptyString
  | String c s' => String (lower_ascii c) (ascii_lower s')
  end.

(** Text in the ASCII range: every character is below 128. *)
Fixpoint ascii_only (s : string) : bool :=
  match s with
  | EmptyString => true
  | String c s' => (nat_of_ascii c <? 128)%nat && ascii_only s'
  end.

(** [String.prototype.toLowerCase] belongs to the runtime: it is the Unicode
    lower-case conversion, whose tables are no part of the program.  The
    model takes it as a parameter; what it assumes of it is what the
    conversion does to text in the ASCII range.  A string stands for the
    text it encodes in UTF-8. *)
Class StringCase : Type := {
  toLowerCase : string -> string;
  toLowerCase_ascii :
    forall s, ascii_only s = true -> toLowerCase s = ascii_lower s }.

Fixpoint starts_with (q s : string) : bool :=
  match q, s with
  | EmptyString, _ => true
  | String _ _, EmptyString => false
  | String a q', String b s' => Ascii.eqb a b && starts_with q' s'
  end.

(** [s.includes(q)]: [q] occurs in [s] at some position. *)
Fixpoint String_includes (s q : string) : bool :=
  starts_with q s ||
  match s with
  | EmptyString => false
  | String _ s' => String_includes s' q
  end.

(** [l.includes(x)] on an array of strings. *)
Definition Array_includes (l : list string) (x : string) : bool :=
  existsb (String.eqb x) l.

(** ** Read methods *)

Definition matches `{StringCase} (query : string) (e : Entity) : bool :=
  String_includes (toLowerCase (name e)) (toLowerCase query)
  || String_includes (toLowerCase (entityType e)) (toLowerCase query)
  || existsb (fun o => String_includes (toLowerCase o) (toLowerCase query))
       (observations e).

(** The relations between the entities kept, looked up in a [Set] of their
    names. *)
Definition between (filteredEntities : list Entity) (rs : list Relation)
  : list Relation :=
  let filteredEntityNames : gset string :=
    list_to_set (name <$> filteredEntities) in
  List.filter
    (fun r => bool_decide (from r ∈ filteredEntityNames)
              && bool_decide (to r ∈ filteredEntityNames)) rs.

Definition searchNodes `{StringCase} (query : string) : M KnowledgeGraph :=
  let* graph := loadGraph in
  let filteredEntities := List.filter (matches query) (entities graph) in
  let filteredRelations := between filteredEntities (relations graph) in
  ret {| entities := filteredEntities; relations := filteredRelations |}.

Definition openNodes (names : list string) : M KnowledgeGraph :=
  let* graph := loadGraph in
  let filteredEntities :=
    List.filter (fun e => Array_includes names (name e)) (entities graph) in
  let filteredRelations := between filteredEntities (relations graph) in
  ret {| entities := filteredEntities; relations := filteredRelations |}.

(** ** Mutations *)

(** [xs.forEach((x) => Schema.parse(x))]: throws at the first element the
    schema rejects, and drops what the schema returns. *)
Definition forEach_parse {A B} (parse : value -> option B)
    (obj : A -> gmap string value) (xs : list A) : M unit :=
  if forallb (fun x => bool_decide (is_Some (parse (VObj (obj x))))) xs
  then ret tt
  else throw ZodError.

Definition same_triple (a b : Relation) : bool :=
  String.eqb (from a) (from b) && String.eqb (to a) (to b)
  && String.eqb (relationType a) (relationType b).

Definition createEntities (input : list Entity) : M (list Entity) :=
  let* _ := forEach_parse EntitySchema_parse Entity_obj input in
  let* graph := loadGraph in
  let newEntities :=
    List.filter
      (fun e => negb (existsb (fun existingEntity =>
                                 String.eqb (name existingEntity) (name e))
                        (entities graph))) input in
  let graph := {| entities := entities graph ++ newEntities;
                  relations := relations graph |} in
  let* _ := saveGraph graph in
  ret newEntities.

Definition createRelations (input : list Relation) : M (list Relation) :=
  let* _ := forEach_parse RelationSchema_parse Relation_obj input in
  let* graph := loadGraph in
  let newRelations :=
    List.filter
      (fun r => negb (existsb (fun existingRelation =>
                                 same_triple existingRelation r)
                        (relations graph))) input in
  let graph := {| entities := entities graph;
                  relations := relations graph ++ newRelations |} in
  let* _ := saveGraph graph in
  ret newRelations.

Record Update : Type := {
  entityName : string;
  contents : list string }.

Record Added : Type := {
  added_entityName : string;
  addedObservations : list string }.

Definition set_observations (e : Entity) (obs : list string) : Entity :=
  {| name := name e; entityType := entityType e; observations := obs;
     entity_extra := entity_extra e |}.

(** The callback of [observations.map] in [addObservations].  The entity
    found is an element of [graph.entities], so pushing onto its
    observations changes the graph at that index. *)
Definition add_one (graph : KnowledgeGraph) (o : Update)
  : result (Added * KnowledgeGraph) :=
  match list_find (fun e => name e = entityName o) (entities graph) with
  | None => Throw (Error_ ("Entity with name " +:+ entityName o +:+ " not found"))
  | Some (i, entity) =>
      let newObservations :=
        List.filter (fun content =>
                       negb (Array_includes (observations entity) content))
          (contents o) in
      let entity' :=
        set_observations entity (observations entity ++ newObservations) in
      Ok ({| added_entityName := entityName o;
             addedObservations := newObservations |},
          {| entities := <[i := entity']> (entities graph);
             relations := relations graph |})
  end.

Fixpoint add_all (graph : KnowledgeGraph) (os : list Update)
  : result (list Added * KnowledgeGraph) :=
  match os with
  | [] => Ok ([], graph)
  | o :: os' =>
      result_bind (add_one graph o) (fun '(r, graph) =>
      result_bind (add_all graph os') (fun '(rs, graph) =>
        Ok (r :: rs, graph)))
  end.

Definition lift {A} (r : result A) : M A := fun d => (r, d).

Definition addObservations (input : list Update) : M (list Added) :=
  let* graph := loadGraph in
  let* out := lift (add_all graph input) in
  let* _ := saveGraph (snd out) in
  ret (fst out).

Definition deleteEntities (entityNames : list string) : M unit :=
  let* graph := loadGraph in
  let graph :=
    {| entities :=
         List.filter (fun e => negb (Array_includes entityNames (name e)))
           (entities graph);
       relations := relations graph |} in
  let graph :=
    {| entities := entities graph;
       relations :=
         List.filter (fun r => negb (Array_includes entityNames (from r))
                               && negb (Array_includes entityNames (to r)))
           (relations graph) |} in
  saveGraph graph.

Record Deletion : Type := {
  del_entityName : string;
  del_observations : list string }.

(** The callback of [deletions.forEach] in [deleteObservations]. *)
Definition delete_one (graph : KnowledgeGraph) (d : Deletion) : KnowledgeGraph :=
  match list_find (fun e => name e = del_entityName d) (entities graph) with
  | Some (i, entity) =>
      let entity' :=
        set_observations entity
          (List.filter (fun o => negb (Array_includes (del_observations d) o))
             (observations entity)) in
      {| entities := <[i := entity']> (entities graph);
         relations := relations graph |}
  | None => graph
  end.

Definition deleteObservations (deletions : list Deletion) : M unit :=
  let* graph := loadGraph in
  let graph := fold_left delete_one deletions graph in
  saveGraph graph.

Definition deleteRelations (input : list Relation) : M unit :=
  let* _ := forEach_parse RelationSchema_parse Relation_obj input in
  let* graph := loadGraph in
  let graph :=
    {| entities := entities graph;
       relations :=
         List.filter
           (fun r => negb (existsb (fun delRelation => same_triple r delRelation)
                             input))
           (relations graph) |} in
  saveGraph graph.

(** * Vocabulary of the statements *)

(** ** Objects and the schema's view of them *)

(** An object reduced to the properties its schema names: what the schema's
    [parse] returns for it. *)
Definition strip_entity (e : Entity) : Entity :=
  {| name := name e; entityType := entityType e;
     observations := observations e; entity_extra := ∅ |}.

Definition strip_relation (r : Relation) : Relation :=
  {| from := from r; to := to r; relationType := relationType r;
     relation_extra := ∅ |}.

Definition strip_graph (g : KnowledgeGraph) : KnowledgeGraph :=
  {| entities := strip_entity <$> entities g;
     relations := strip_relation <$> relations g |}.

(** A graph none of whose objects carries a property beyond the schema's. *)
Definition clean (g : KnowledgeGraph) : Prop :=
  Forall (fun e => entity_extra e = ∅) (entities g)
  /\ Forall (fun r => relation_extra r = ∅) (relations g).

(** A graph none of whose objects has a [type] property of its own. *)
Definition no_own_type (g : KnowledgeGraph) : Prop :=
  Forall (fun e => entity_extra e !! "type" = None) (entities g)
  /\ Forall (fun r => relation_extra r !! "type" = None) (relations g).

Definition names (g : KnowledgeGraph) : list string := name <$> entities g.

Definition entity_view (e : Entity) : string * string * list string :=
  (name e, entityType e, observations e).

Definition triple (r : Relation) : string * string * string :=
  (from r, to r, relationType r).

Definition triples (g : KnowledgeGraph) : list (string * string * string) :=
  triple <$> relations g.

(** Equality of graphs as sets: the same entities, each with its name, type
    and observations, and the same relation triples. *)
Definition same_graph (g h : KnowledgeGraph) : Prop :=
  (forall x, x ∈ entity_view <$> entities g <-> x ∈ entity_view <$> entities h)
  /\ (forall t, t ∈ triples g <-> t ∈ triples h).

(** Entity names are unique, and so are relation triples. *)
Definition invariant (g : KnowledgeGraph) : Prop :=
  NoDup (names g) /\ NoDup (triples g).

(** Every endpoint of a relation names an entity of the graph. *)
Definition closed (g : KnowledgeGraph) : Prop :=
  Forall (fun r => from r ∈ names g /\ to r ∈ names g) (relations g).

(** A name that occurs nowhere in the graph. *)
Definition absent (g : KnowledgeGraph) (n : string) : Prop :=
  (n ∉ names g) /\ forall r, r ∈ relations g -> from r <> n /\ to r <> n.


(** ** Lines and records of the file *)

Definition item_of (l : line) : option value :=
  match l with
  | Json v => Some v
  | _ => None
  end.

(** [item.type] of a value other than [null]. *)
Definition type_of (v : value) : option value :=
  match v with
  | VObj o => o !! "type"
  | _ => None
  end.

Definition is_entity_item (v : value) : bool := is_str "entity" (type_of v).
Definition is_relation_item (v : value) : bool := is_str "relation" (type_of v).

(** A line the [reduce] of [loadGraph] gets past: JSON, and not [null]. *)
Definition readable (l : line) : Prop := exists v, l = Json v /\ v <> VNull.

(** One step of the [reduce] on a readable line. *)
Definition push_item (v : value) (acc : RawGraph) : RawGraph :=
  {| raw_entities := raw_entities acc ++ List.filter is_entity_item [v];
     raw_relations := raw_relations acc ++ List.filter is_relation_item [v] |}.

(** A record that is tagged as an entity or as a relation and fails the
    schema of its tag. *)
Definition invalid_tagged (v : value) : Prop :=
  (is_entity_item v = true /\ EntitySchema_parse v = None)
  \/ (is_relation_item v = true /\ RelationSchema_parse v = None).

(** A line holding a record of one of the two tagged shapes. *)
Definition valid_record (l : line) : Prop :=
  exists v, l = Json v
    /\ ((is_entity_item v = true /\ is_Some (EntitySchema_parse v))
        \/ (is_relation_item v = true /\ is_Some (RelationSchema_parse v))).

(** ** What the mutations compute *)

(** The message of [addObservations] for a missing entity. *)
Definition not_found (n : string) : error :=
  Error_ ("Entity with name " +:+ n +:+ " not found").

(** The tests of [createEntities] and [createRelations] against the graph
    loaded. *)
Definition known_name (g : KnowledgeGraph) (e : Entity) : bool :=
  existsb (fun existingEntity => String.eqb (name existingEntity) (name e))
    (entities g).

Definition known_triple (g : KnowledgeGraph) (r : Relation) : bool :=
  existsb (fun existingRelation => same_triple existingRelation r) (relations g).

(** The graphs [deleteEntities] and [deleteRelations] save. *)
Definition without_entities (entityNames : list string) (g : KnowledgeGraph)
  : KnowledgeGraph :=
  {| entities :=
       List.filter (fun e => negb (Array_includes entityNames (name e)))
         (entities g);
     relations :=
       List.filter (fun r => negb (Array_includes entityNames (from r))
                             && negb (Array_includes entityNames (to r)))
         (relations g) |}.

Definition without_relations (input : list Relation) (g : KnowledgeGraph)
  : KnowledgeGraph :=
  {| entities := entities g;
     relations :=
       List.filter
         (fun r => negb (existsb (fun delRelation => same_triple r delRelation)
                           input))
         (relations g) |}.

(** Running [m] on the file [d] saves the graph [g'], which has unique
    entity names and unique relation triples, and the file then loads to
    [g'] reduced to the properties of the schemas, with unique entity names
    and unique relation triples. *)
Definition saves_unique {A} (m : M A) (d : fs) (g' : KnowledgeGraph) : Prop :=
  snd (m d) = Some (graph_lines g')
  /\ invariant g'
  /\ fst (loadGraph (snd (m d))) = Ok (strip_graph g')
  /\ invariant (strip_graph g').

(** ** Search *)

(** The test of the code, as a proposition: the lower-cased query occurs in
    the lower-cased text. *)
Definition occurs_lowered `{StringCase} (q s : string) : Prop :=
  exists pre post, toLowerCase s = pre +:+ toLowerCase q +:+ post.

Definition matches_query `{StringCase} (q : string) (e : Entity) : Prop :=
  occurs_lowered q (name e) \/ occurs_lowered q (entityType e)
  \/ exists o, o ∈ observations e /\ occurs_lowered q o.

(** The words of the specification, with no lower-casing in them.  Two
    characters are the same letter when they are equal or one is a letter
    [A] to [Z] and the other the small letter 32 places after it. *)
Definition is_upper (c : ascii) : bool :=
  (65 <=? nat_of_ascii c)%nat && (nat_of_ascii c <=? 90)%nat.

Definition same_letter (a b : ascii) : bool :=
  Ascii.eqb a b
  || (is_upper a && (nat_of_ascii b =? nat_of_ascii a + 32)%nat)
  || (is_upper b && (nat_of_ascii a =? nat_of_ascii b + 32)%nat).

Fixpoint same_letters (a b : string) : bool :=
  match a, b with
  | EmptyString, EmptyString => true
  | String x a', String y b' => same_letter x y && same_letters a' b'
  | _, _ => false
  end.

(** [q] is a case-insensitive substring of [s]: some stretch of [s] spells
    [q] letter by letter.  A literal occurrence is one. *)
Definition ci_substring (q s : string) : Prop :=
  exists pre sub post, s = pre +:+ sub +:+ post /\ same_letters sub q = true.

Definition ci_matches (q : string) (e : Entity) : Prop :=
  ci_substring q (name e) \/ ci_substring q (entityType e)
  \/ exists o, o ∈ observations e /\ ci_substring q o.

(** An entity whose name, type and observations are in the ASCII range. *)
Definition ascii_entity (e : Entity) : Prop :=
  ascii_only (name e) = true /\ ascii_only (entityType e) = true
  /\ Forall (fun o => ascii_only o = true) (observations e).

(** The 256 characters. *)
Definition all_ascii : list ascii := ascii_of_nat <$> seq 0 256.

(** A [toLowerCase] for the examples: the conversion on text in the ASCII
    range, and its values on the other strings that the examples use.  By
    the final-sigma rule of the conversion, a capital sigma that ends a word
    becomes the final small sigma, a capital sigma alone the small sigma. *)
Definition sample_table : list (string * string) :=
  [("ΑΣ", "ας"); ("Σ", "σ"); ("École", "école")].

Definition sample_lower (s : string) : string :=
  match List.find (fun p => String.eqb (fst p) s) sample_table with
  | Some p => snd p
  | None => ascii_lower s
  end.

#[export] Instance sample_case : StringCase.
Proof.
  refine {| toLowerCase := sample_lower |}.
  intros s Hs. unfold sample_lower, sample_table. cbn [List.find fst snd].
  repeat match goal with
  | |- context [String.eqb ?k s] =>
      destruct (String.eqb_spec k s) as [<-|_]; [discriminate Hs|]
  end.
  reflexivity.
Defined.

(** ** Sample graphs and files *)

Definition alice : Entity :=
  {| name := "Alice"; entityType := "person"; observations := ["likes tea"];
     entity_extra := ∅ |}.

Definition bob : Entity :=
  {| name := "Bob"; entityType := "person"; observations := [];
     entity_extra := ∅ |}.

Definition knows : Relation :=
  {| from := "Alice"; to := "Bob"; relationType := "knows";
     relation_extra := ∅ |}.

Definition likes : Relation :=
  {| from := "Bob"; to := "Alice"; relationType := "likes";
     relation_extra := ∅ |}.

Definition alice_graph : KnowledgeGraph :=
  {| entities := [alice; bob]; relations := [knows] |}.

Definition alice_file : fs := Some (graph_lines alice_graph).

(** A graph holding one relation and no entity. *)
Definition dangling_graph : KnowledgeGraph :=
  {| entities := []; relations := [knows] |}.

(** An entity that satisfies the schema and has a [type] property of its
    own. *)
Definition typed_entity (ty : string) : Entity :=
  {| name := "A"; entityType := "t"; observations := [];
     entity_extra := {[ "type" := VStr ty ]} |}.

Definition typed_graph (ty : string) : KnowledgeGraph :=
  {| entities := [typed_entity ty]; relations := [] |}.

(** An entity named by two Greek capitals, alpha and sigma. *)
Definition alpha_sigma : Entity :=
  {| name := "ΑΣ"; entityType := "letters"; observations := [];
     entity_extra := ∅ |}.

(** Entities that bring a second relation triple with them: each has a
    [type] of its own that makes its record a relation record. *)
Definition disguised (n : string) : Entity :=
  {| name := n; entityType := "t"; observations := [];
     entity_extra := {[ "type" := VStr "relation"; "from" := VStr "Alice";
                        "to" := VStr "Bob"; "relationType" := VStr "knows" ]} |}.

(** A file whose one record carries a property the schema does not name. *)
Definition coloured_file : fs :=
  Some [Json (VObj {[ "type" := VStr "entity"; "name" := VStr "Alice";
                      "entityType" := VStr "person";
                      "observations" := VArr [VStr "likes tea"];
                      "colour" := VStr "red" ]})].

(** ** Observations, batches and calls *)

(** A graph one of whose entities carries a property the schema does not
    name. *)
Definition coloured_graph : KnowledgeGraph :=
  {| entities :=
       [{| name := "Alice"; entityType := "person";
           observations := ["likes tea"];
           entity_extra := {[ "colour" := VStr "red" ]} |}; bob];
     relations := [knows] |}.

(** The entity a lookup by name finds: the first one of that name. *)
Definition found (g : KnowledgeGraph) (n : string) : option Entity :=
  snd <$> list_find (fun e => name e = n) (entities g).

(** The observations of the entity found, none when there is no entity of
    that name. *)
Definition obs_of (g : KnowledgeGraph) (n : string) : list string :=
  match found g n with
  | Some e => observations e
  | None => []
  end.

(** The result of an update that adds nothing. *)
Definition nothing_added (o : Update) : Added :=
  {| added_entityName := entityName o; addedObservations := [] |}.

(** Two entities that differ at most in their observations. *)
Definition same_but_observations (e e' : Entity) : Prop :=
  name e' = name e /\ entityType e' = entityType e
  /\ entity_extra e' = entity_extra e.

(** Some deletion of the batch names the entity [n] and lists [c]. *)
Definition deleted_from (ds : list Deletion) (n c : string) : bool :=
  existsb (fun dl => String.eqb (del_entityName dl) n
                     && Array_includes (del_observations dl) c) ds.

(** The six mutations, for statements about all of them. *)
Inductive mutation : Type :=
| CreateEntities (input : list Entity)
| CreateRelations (input : list Relation)
| AddObservations (input : list Update)
| DeleteEntities (entityNames : list string)
| DeleteObservations (deletions : list Deletion)
| DeleteRelations (input : list Relation).

(** A call whose returned value is not looked at. *)
Definition discard {A} (m : M A) : M unit := let* _ := m in ret tt.

Definition run (m : mutation) : M unit :=
  match m with
  | CreateEntities input => discard (createEntities input)
  | CreateRelations input => discard (createRelations input)
  | AddObservations input => discard (addObservations input)
  | DeleteEntities entityNames => deleteEntities entityNames
  | DeleteObservations deletions => deleteObservations deletions
  | DeleteRelations input => deleteRelations input
  end.

(** * Properties *)

(** ** Schemas *)

Lemma mapM_fmap {A B C} (f : A -> option B) (g : C -> A) (h : C -> B) l :
  (forall x, f (g x) = Some (h x)) -> mapM f (g <$> l) = Some (h <$> l).
Proof.
  intros H. induction l as [|x l IH]; [done|].
  simpl. rewrite H. simpl. fold (fmap g l). by rewrite IH.
Qed.

Lemma z_strings (l : list string) :
  mapM (fun x => z_string (Some x)) (VStr <$> l) = Some l.
Proof. apply mapM_fmap_Some. done. Qed.

Lemma Entity_obj_name e : Entity_obj e !! "name" = Some (VStr (name e)).
Proof. unfold Entity_obj. by rewrite lookup_insert_eq. Qed.

Lemma Entity_obj_entityType e :
  Entity_obj e !! "entityType" = Some (VStr (entityType e)).
Proof.
  unfold Entity_obj. rewrite lookup_insert_ne by done. by rewrite lookup_insert_eq.
Qed.

Lemma Entity_obj_observations e :
  Entity_obj e !! "observations" = Some (VArr (VStr <$> observations e)).
Proof.
  unfold Entity_obj. do 2 rewrite lookup_insert_ne by done.
  by rewrite lookup_insert_eq.
Qed.

Lemma Entity_obj_other e k :
  k <> "name" -> k <> "entityType" -> k <> "observations" ->
  Entity_obj e !! k = entity_extra e !! k.
Proof.
  intros. unfold Entity_obj. by do 3 rewrite lookup_insert_ne by done.
Qed.

Lemma Relation_obj_from r : Relation_obj r !! "from" = Some (VStr (from r)).
Proof. unfold Relation_obj. by rewrite lookup_insert_eq. Qed.

Lemma Relation_obj_to r : Relation_obj r !! "to" = Some (VStr (to r)).
Proof.
  unfold Relation_obj. rewrite lookup_insert_ne by done. by rewrite lookup_insert_eq.
Qed.

Lemma Relation_obj_relationType r :
  Relation_obj r !! "relationType" = Some (VStr (relationType r)).
Proof.
  unfold Relation_obj. do 2 rewrite lookup_insert_ne by done.
  by rewrite lookup_insert_eq.
Qed.

Lemma Relation_obj_other r k :
  k <> "from" -> k <> "to" -> k <> "relationType" ->
  Relation_obj r !! k = relation_extra r !! k.
Proof.
  intros. unfold Relation_obj. by do 3 rewrite lookup_insert_ne by done.
Qed.

(** Reading a property other than [type] off a tagged record. *)
Lemma tagged_other tag (obj : gmap string value) k :
  k <> "type" -> tagged tag obj !! k = obj !! k.
Proof.
  intros Hk. unfold tagged. rewrite lookup_union.
  rewrite lookup_singleton_ne by done. by destruct (obj !! k).
Qed.

Lemma tagged_type tag (obj : gmap string value) :
  tagged tag obj !! "type" =
  match obj !! "type" with
  | Some v => Some v
  | None => Some (VStr tag)
  end.
Proof.
  unfold tagged. rewrite lookup_union, lookup_singleton_eq.
  by destruct (obj !! "type").
Qed.

(** Every object of type [Entity] passes [EntitySchema], which returns it
    without its extra properties. *)
Lemma EntitySchema_parse_obj e :
  EntitySchema_parse (VObj (Entity_obj e)) = Some (strip_entity e).
Proof.
  unfold EntitySchema_parse.
  rewrite Entity_obj_name, Entity_obj_entityType, Entity_obj_observations.
  simpl. by rewrite z_strings.
Qed.

Lemma RelationSchema_parse_obj r :
  RelationSchema_parse (VObj (Relation_obj r)) = Some (strip_relation r).
Proof.
  unfold RelationSchema_parse.
  by rewrite Relation_obj_from, Relation_obj_to, Relation_obj_relationType.
Qed.

Lemma EntitySchema_parse_record e :
  EntitySchema_parse (entity_record e) = Some (strip_entity e).
Proof.
  unfold EntitySchema_parse, entity_record. do 3 rewrite tagged_other by done.
  rewrite Entity_obj_name, Entity_obj_entityType, Entity_obj_observations.
  simpl. by rewrite z_strings.
Qed.

Lemma RelationSchema_parse_record r :
  RelationSchema_parse (relation_record r) = Some (strip_relation r).
Proof.
  unfold RelationSchema_parse, relation_record. do 3 rewrite tagged_other by done.
  by rewrite Relation_obj_from, Relation_obj_to, Relation_obj_relationType.
Qed.

(** What a schema returns has the schema's properties only. *)
Lemma EntitySchema_parse_extra v e :
  EntitySchema_parse v = Some e -> entity_extra e = ∅.
Proof.
  unfold EntitySchema_parse. intros H.
  repeat case_match; simplify_eq; done.
Qed.

Lemma RelationSchema_parse_extra v r :
  RelationSchema_parse v = Some r -> relation_extra r = ∅.
Proof.
  unfold RelationSchema_parse. intros H.
  repeat case_match; simplify_eq; done.
Qed.

Lemma KnowledgeGraphSchema_parse_clean raw g :
  KnowledgeGraphSchema_parse raw = Some g -> clean g.
Proof.
  unfold KnowledgeGraphSchema_parse. intros H.
  destruct (mapM EntitySchema_parse (raw_entities raw)) as [es|] eqn:He; [|done].
  destruct (mapM RelationSchema_parse (raw_relations raw)) as [rs|] eqn:Hr; [|done].
  simplify_eq. split; simpl.
  - apply mapM_Some_1 in He. induction He; constructor; eauto using EntitySchema_parse_extra.
  - apply mapM_Some_1 in Hr. induction Hr; constructor; eauto using RelationSchema_parse_extra.
Qed.

Lemma KnowledgeGraphSchema_parse_raw_of g :
  KnowledgeGraphSchema_parse (raw_of g) = Some (strip_graph g).
Proof.
  unfold KnowledgeGraphSchema_parse, raw_of, strip_graph. simpl.
  rewrite (mapM_fmap EntitySchema_parse _ strip_entity)
    by (intros e; apply EntitySchema_parse_obj).
  rewrite (mapM_fmap RelationSchema_parse _ strip_relation)
    by (intros r; apply RelationSchema_parse_obj).
  done.
Qed.

Lemma strip_clean g : clean g -> strip_graph g = g.
Proof.
  destruct g as [es rs]. intros [He Hr]. unfold strip_graph. simpl in *. f_equal.
  - induction He as [|e es H]; [done|]. simpl. f_equal; [|done].
    destruct e; simpl in *. by subst.
  - induction Hr as [|r rs H]; [done|]. simpl. f_equal; [|done].
    destruct r; simpl in *. by subst.
Qed.

(** ** [saveGraph] and [loadGraph] *)

(** [saveGraph] never rejects a graph of type [KnowledgeGraph]; it replaces
    the file by the records of the graph. *)
Lemma saveGraph_writes g d : saveGraph g d = (Ok tt, Some (graph_lines g)).
Proof. unfold saveGraph. by rewrite KnowledgeGraphSchema_parse_raw_of. Qed.

(** [loadGraph] leaves the file as it is. *)
Lemma loadGraph_fs d : snd (loadGraph d) = d.
Proof. by destruct d. Qed.

Lemma loadGraph_Ok d g : fst (loadGraph d) = Ok g -> loadGraph d = (Ok g, d).
Proof.
  intros H. pose proof (loadGraph_fs d). destruct (loadGraph d); simpl in *.
  by subst.
Qed.

Lemma is_str_exclusive ty : is_str "entity" ty = true -> is_str "relation" ty = false.
Proof.
  destruct ty as [[]|]; simpl; try done.
  intros ->%String.eqb_eq. done.
Qed.

Lemma load_step_Json acc v :
  v <> VNull -> load_step (Ok acc) (Json v) = Ok (push_item v acc).
Proof.
  intros Hv. unfold load_step, push_item, is_entity_item, is_relation_item. simpl.
  assert (get_type v = Ok (type_of v)) as -> by (by destruct v).
  simpl. destruct acc as [es rs]. simpl.
  destruct (is_str "entity" (type_of v)) eqn:He.
  - rewrite (is_str_exclusive _ He). simpl. by rewrite app_nil_r.
  - destruct (is_str "relation" (type_of v)); simpl; by rewrite !app_nil_r.
Qed.

Lemma load_step_Ok acc l g :
  load_step (Ok acc) l = Ok g ->
  exists v, l = Json v /\ v <> VNull /\ g = push_item v acc.
Proof.
  intros H. destruct l as [| |v]; try done.
  assert (v <> VNull) as Hv by (by intros ->).
  exists v. rewrite load_step_Json in H by done. by simplify_eq.
Qed.

Lemma load_fold_Throw ls e : fold_left load_step ls (Throw e) = Throw e.
Proof. induction ls; simpl; auto. Qed.

Lemma load_fold_Ok ls acc g :
  fold_left load_step ls (Ok acc) = Ok g ->
  Forall readable ls
  /\ raw_entities g = raw_entities acc ++ List.filter is_entity_item (omap item_of ls)
  /\ raw_relations g = raw_relations acc ++ List.filter is_relation_item (omap item_of ls).
Proof.
  revert acc. induction ls as [|l ls IH]; intros acc H.
  - simpl in *. simplify_eq. by rewrite !app_nil_r.
  - change (fold_left load_step ls (load_step (Ok acc) l) = Ok g) in H.
    destruct (load_step (Ok acc) l) as [acc'|e] eqn:Hl.
    + apply load_step_Ok in Hl as (v & -> & Hv & ->).
      apply IH in H as (Hls & He & Hr). split_and!.
      * constructor; [by exists v | done].
      * rewrite He. simpl. rewrite <- app_assoc. f_equal. by destruct (is_entity_item v).
      * rewrite Hr. simpl. rewrite <- app_assoc. f_equal. by destruct (is_relation_item v).
    + by rewrite load_fold_Throw in H.
Qed.

Lemma load_fold_readable ls acc :
  Forall readable ls ->
  fold_left load_step ls (Ok acc) =
  Ok {| raw_entities :=
          raw_entities acc ++ List.filter is_entity_item (omap item_of ls);
        raw_relations :=
          raw_relations acc ++ List.filter is_relation_item (omap item_of ls) |}.
Proof.
  intros H. revert acc. induction H as [|l ls (v & -> & Hv) Hls IH]; intros acc.
  - simpl. rewrite !app_nil_r. by destruct acc.
  - change (fold_left load_step (Json v :: ls) (Ok acc))
      with (fold_left load_step ls (load_step (Ok acc) (Json v))).
    rewrite load_step_Json by done. rewrite IH. f_equal. f_equal.
    + simpl. rewrite <- app_assoc. f_equal. by destruct (is_entity_item v).
    + simpl. rewrite <- app_assoc. f_equal. by destruct (is_relation_item v).
Qed.

(** A successful load, read off the file: what [load_lines] returns is the
    schema's reading of the entity-tagged and of the relation-tagged
    records, in file order. *)
Lemma load_lines_Ok data g :
  load_lines data = Ok g <->
  Forall readable (List.filter nonblank data)
  /\ mapM EntitySchema_parse
       (List.filter is_entity_item (omap item_of (List.filter nonblank data)))
     = Some (entities g)
  /\ mapM RelationSchema_parse
       (List.filter is_relation_item (omap item_of (List.filter nonblank data)))
     = Some (relations g).
Proof.
  unfold load_lines. split.
  - intros H.
    destruct (fold_left load_step (List.filter nonblank data) (Ok empty_raw))
      as [raw|e] eqn:Hf; [|done].
    apply load_fold_Ok in Hf as (Hls & He & Hr). simpl in *.
    unfold KnowledgeGraphSchema_parse in H. rewrite He, Hr in H.
    split; [done|].
    repeat case_match; simplify_eq; done.
  - intros (Hls & He & Hr). rewrite load_fold_readable by done. simpl.
    unfold KnowledgeGraphSchema_parse. simpl. rewrite He, Hr. by destruct g.
Qed.

(** Whatever [loadGraph] returns has the schema's properties only. *)
Lemma loadGraph_clean d g : fst (loadGraph d) = Ok g -> clean g.
Proof.
  destruct d as [data|]; simpl.
  - unfold load_lines.
    destruct (fold_left load_step _ _) as [raw|]; [|done]. simpl.
    destruct (KnowledgeGraphSchema_parse raw) eqn:Hp; [|done].
    intros; simplify_eq. eauto using KnowledgeGraphSchema_parse_clean.
  - intros; simplify_eq. split; constructor.
Qed.

(** The tag a saved record carries: the object's own [type] if it has one. *)
Lemma entity_record_type e :
  type_of (entity_record e) =
  match entity_extra e !! "type" with
  | Some v => Some v
  | None => Some (VStr "entity")
  end.
Proof.
  unfold entity_record. simpl. rewrite tagged_type.
  by rewrite Entity_obj_other by done.
Qed.

Lemma relation_record_type r :
  type_of (relation_record r) =
  match relation_extra r !! "type" with
  | Some v => Some v
  | None => Some (VStr "relation")
  end.
Proof.
  unfold relation_record. simpl. rewrite tagged_type.
  by rewrite Relation_obj_other by done.
Qed.

Lemma clean_no_own_type g : clean g -> no_own_type g.
Proof.
  intros [He Hr]. split.
  - eapply Forall_impl; [exact He|]. by intros e ->.
  - eapply Forall_impl; [exact Hr|]. by intros r ->.
Qed.

Lemma filter_all {A} (f : A -> bool) l :
  Forall (fun x => f x = true) l -> List.filter f l = l.
Proof. induction 1 as [|x l Hx _ IH]; simpl; [done|]. by rewrite Hx, IH. Qed.

Lemma filter_none {A} (f : A -> bool) l :
  Forall (fun x => f x = false) l -> List.filter f l = [].
Proof. induction 1 as [|x l Hx _ IH]; simpl; [done|]. by rewrite Hx. Qed.

Lemma graph_lines_nonblank g : List.filter nonblank (graph_lines g) = graph_lines g.
Proof.
  apply filter_all. unfold graph_lines. apply Forall_app. split.
  - apply Forall_fmap, Forall_true. done.
  - apply Forall_fmap, Forall_true. done.
Qed.

Lemma graph_lines_readable g : Forall readable (graph_lines g).
Proof.
  unfold graph_lines. apply Forall_app. split.
  - apply Forall_fmap, Forall_true. intros e. by eexists.
  - apply Forall_fmap, Forall_true. intros r. by eexists.
Qed.

Lemma graph_lines_items g :
  omap item_of (graph_lines g)
  = (entity_record <$> entities g) ++ (relation_record <$> relations g).
Proof.
  unfold graph_lines. rewrite omap_app. f_equal.
  - induction (entities g) as [|e es IH]; [done|]. simpl. by f_equal.
  - induction (relations g) as [|r rs IH]; [done|]. simpl. by f_equal.
Qed.

(** Saving and loading again returns the graph, reduced to the schema's
    properties, when no object has a [type] of its own. *)
Lemma load_saved g :
  no_own_type g -> load_lines (graph_lines g) = Ok (strip_graph g).
Proof.
  intros [He Hr]. apply load_lines_Ok.
  rewrite graph_lines_nonblank, graph_lines_items, !List.filter_app.
  split; [apply graph_lines_readable|]. simpl. split.
  - rewrite filter_all, filter_none, app_nil_r.
    + apply mapM_fmap. apply EntitySchema_parse_record.
    + apply Forall_fmap. eapply Forall_impl; [exact Hr|]. intros r H. simpl.
      unfold is_entity_item. by rewrite relation_record_type, H.
    + apply Forall_fmap. eapply Forall_impl; [exact He|]. intros e H. simpl.
      unfold is_entity_item. by rewrite entity_record_type, H.
  - rewrite filter_none, filter_all.
    + apply mapM_fmap. apply RelationSchema_parse_record.
    + apply Forall_fmap. eapply Forall_impl; [exact Hr|]. intros r H. simpl.
      unfold is_relation_item. by rewrite relation_record_type, H.
    + apply Forall_fmap. eapply Forall_impl; [exact He|]. intros e H. simpl.
      unfold is_relation_item. by rewrite entity_record_type, H.
Qed.

Lemma same_graph_strip g : same_graph g (strip_graph g).
Proof.
  unfold same_graph, triples, strip_graph. simpl.
  rewrite <- !list_fmap_compose. split; intros x; reflexivity.
Qed.

(** The round trip, for graphs whose objects have no [type] of their own:
    [loadGraph] after [saveGraph] returns the same graph as sets, with the
    properties of the schema only. *)
Lemma round_trip_no_own_type g d :
  no_own_type g ->
  fst ((let* _ := saveGraph g in loadGraph) d) = Ok (strip_graph g)
  /\ same_graph g (strip_graph g).
Proof.
  intros Hg. unfold bind. rewrite saveGraph_writes. simpl.
  split; [by apply load_saved | apply same_graph_strip].
Qed.

Lemma round_trip_clean g d :
  clean g -> loadGraph (snd (saveGraph g d)) = (Ok g, Some (graph_lines g)).
Proof.
  intros Hc. rewrite saveGraph_writes. simpl.
  rewrite load_saved by auto using clean_no_own_type. by rewrite strip_clean.
Qed.

(** ** Round trip through the file *)

(** C1, at a graph that satisfies the shape constraints: [saveGraph] writes
    the entity's own [type] in place of the ["entity"] tag, so [loadGraph]
    after [saveGraph] does not return the graph.  With [type: "note"] the
    entity is gone from the graph loaded, which is not the graph saved; with
    [type: "relation"] the load throws. *)
Theorem saveGraph_loadGraph_own_type :
  KnowledgeGraphSchema_parse (raw_of (typed_graph "note"))
  = Some (strip_graph (typed_graph "note"))
  /\ fst ((let* _ := saveGraph (typed_graph "note") in loadGraph) None)
     = Ok empty_graph
  /\ ~ same_graph (typed_graph "note") empty_graph
  /\ fst ((let* _ := saveGraph (typed_graph "relation") in loadGraph) None)
     = Throw ZodError.
Proof.
  split_and!.
  - apply KnowledgeGraphSchema_parse_raw_of.
  - vm_compute. reflexivity.
  - intros [H _]. destruct (H ("A", "t", [])) as [H' _].
    eapply elem_of_nil, H'. apply list_elem_of_In. simpl. auto.
  - vm_compute. reflexivity.
Qed.

(** ** [addObservations] on a missing entity *)

Lemma add_one_Ok g o :
  entityName o ∈ names g ->
  exists r g', add_one g o = Ok (r, g') /\ names g' = names g
               /\ relations g' = relations g.
Proof.
  intros Hin. unfold add_one.
  destruct (list_find (fun e => name e = entityName o) (entities g))
    as [[i e]|] eqn:Hf.
  - eexists _, _. split; [done|]. split; [|done].
    apply list_find_Some in Hf as (Hi & Hn & _).
    unfold names. simpl. rewrite list_fmap_insert. simpl.
    apply list_insert_id. by rewrite list_lookup_fmap, Hi.
  - exfalso. apply list_find_None in Hf.
    apply list_elem_of_fmap in Hin as (e & Heq & He).
    rewrite Forall_forall in Hf. by apply (Hf e He).
Qed.

Lemma add_one_Throw g o :
  entityName o ∉ names g -> add_one g o = Throw (not_found (entityName o)).
Proof.
  intros Hin. unfold add_one.
  destruct (list_find (fun e => name e = entityName o) (entities g))
    as [[i e]|] eqn:Hf; [|done].
  exfalso. apply Hin. apply list_find_Some in Hf as (Hi & Hn & _).
  apply list_elem_of_fmap. exists e. split; [done|].
  by eapply list_elem_of_lookup_2.
Qed.

(** The batch stops at the first update whose entity is missing. *)
Lemma add_all_Throw input : forall g,
  (exists o, o ∈ input /\ entityName o ∉ names g) ->
  exists pre o post,
    input = pre ++ (o :: post)
    /\ Forall (fun u => entityName u ∈ names g) pre
    /\ (entityName o ∉ names g)
    /\ add_all g input = Throw (not_found (entityName o)).
Proof.
  induction input as [|u input IH]; intros g (o & Ho & Hno).
  - by apply elem_of_nil in Ho.
  - destruct (decide (entityName u ∈ names g)) as [Hu|Hu].
    + destruct (add_one_Ok g u Hu) as (r & g' & Hadd & Hnames & _).
      destruct (IH g') as (pre & o' & post & -> & Hpre & Ho' & Hthrow).
      { exists o. rewrite Hnames. split; [|done].
        apply elem_of_cons in Ho as [->|]; done. }
      exists (u :: pre), o', post. rewrite Hnames in *.
      split_and!; [done|by constructor|done|].
      simpl. rewrite Hadd. simpl. by rewrite Hthrow.
    + exists [], u, input. split_and!; [done|constructor|done|].
      simpl. by rewrite add_one_Throw.
Qed.

(** C2: when some update of the batch names an entity the loaded graph
    lacks, [addObservations] throws the not-found error of the first such
    name, the file is left as it was, and [readGraph] afterwards returns the
    graph from before the call. *)
Theorem addObservations_missing_entity (d : fs) (g : KnowledgeGraph)
    (input : list Update) :
  fst (loadGraph d) = Ok g ->
  (exists o, o ∈ input /\ entityName o ∉ names g) ->
  exists pre o post,
    input = pre ++ (o :: post)
    /\ Forall (fun u => entityName u ∈ names g) pre
    /\ (entityName o ∉ names g)
    /\ addObservations input d = (Throw (not_found (entityName o)), d)
    /\ readGraph (snd (addObservations input d)) = (Ok g, d).
Proof.
  intros Hl%loadGraph_Ok Hmiss.
  destruct (add_all_Throw input g Hmiss) as (pre & o & post & Hin & Hpre & Ho & Hthrow).
  exists pre, o, post.
  assert (addObservations input d = (Throw (not_found (entityName o)), d)) as Hadd.
  { unfold addObservations, bind, lift. by rewrite Hl, Hthrow. }
  split_and!; try done. by rewrite Hadd.
Qed.

Lemma addObservations_missing_entity_witness :
  exists pre o post,
    [{| entityName := "Ghost"; contents := ["x"] |}] = pre ++ (o :: post)
    /\ Forall (fun u => entityName u ∈ names empty_graph) pre
    /\ (entityName o ∉ names empty_graph)
    /\ addObservations [{| entityName := "Ghost"; contents := ["x"] |}] None
       = (Throw (not_found (entityName o)), None)
    /\ readGraph (snd (addObservations
                         [{| entityName := "Ghost"; contents := ["x"] |}] None))
       = (Ok empty_graph, None).
Proof.
  apply (addObservations_missing_entity None empty_graph).
  - reflexivity.
  - exists {| entityName := "Ghost"; contents := ["x"] |}. split.
    + apply list_elem_of_In. simpl. auto.
    + simpl. apply not_elem_of_nil.
Defined.

(** ** Records that fail validation *)

Lemma item_in_filter (f : value -> bool) data v :
  Json v ∈ data -> f v = true ->
  v ∈ List.filter f (omap item_of (List.filter nonblank data)).
Proof.
  intros Hin Hf. apply list_elem_of_In, filter_In. split; [|done].
  apply list_elem_of_In, list_elem_of_omap. exists (Json v). split; [|done].
  apply list_elem_of_In, filter_In. split; [by apply list_elem_of_In|done].
Qed.

Lemma mapM_elem_None {A B} (f : A -> option B) l x :
  x ∈ l -> f x = None -> mapM f l = None.
Proof.
  intros Hin Hx. apply mapM_None, Exists_exists. eauto.
Qed.

Lemma load_lines_invalid data v :
  Json v ∈ data -> invalid_tagged v ->
  forall raw, fold_left load_step (List.filter nonblank data) (Ok empty_raw) = Ok raw ->
  KnowledgeGraphSchema_parse raw = None.
Proof.
  intros Hin Hv raw Hf. apply load_fold_Ok in Hf as (_ & He & Hr).
  unfold KnowledgeGraphSchema_parse. rewrite He, Hr. simpl.
  destruct Hv as [[Ht Hp]|[Ht Hp]].
  - by rewrite (mapM_elem_None _ _ v (item_in_filter _ _ _ Hin Ht) Hp).
  - rewrite (mapM_elem_None _ _ v (item_in_filter _ _ _ Hin Ht) Hp).
    by destruct (mapM EntitySchema_parse _).
Qed.

(** A record tagged neither way leaves no trace in the graph loaded. *)
Lemma load_lines_untagged pre post u :
  u <> VNull -> is_entity_item u = false -> is_relation_item u = false ->
  load_lines (pre ++ Json u :: post) = load_lines (pre ++ post).
Proof.
  intros Hu He Hr. unfold load_lines. f_equal.
  rewrite !List.filter_app. simpl. rewrite !fold_left_app. simpl. f_equal.
  destruct (fold_left load_step (List.filter nonblank pre) (Ok empty_raw))
    as [acc|e]; [|done].
  rewrite load_step_Json by done. unfold push_item. simpl.
  rewrite He, Hr, !app_nil_r. by destruct acc.
Qed.

(** C3 as stated fails: a record without a tag satisfies neither tagged
    shape, yet the load succeeds and returns the graph of the other
    records. *)
Lemma loadGraph_untagged_record_omitted :
  let untagged := Json (VObj (Entity_obj bob)) in
  let data := [Json (entity_record alice); untagged] in
  untagged ∈ data /\ nonblank untagged = true /\ ~ valid_record untagged
  /\ fst (loadGraph (Some data))
     = Ok {| entities := [alice]; relations := [] |}.
Proof.
  split_and!.
  - apply list_elem_of_In. simpl. auto.
  - reflexivity.
  - intros (v & Hv & [[Ht _]|[Ht _]]); injection Hv as <-; vm_compute in Ht; done.
  - vm_compute. reflexivity.
Qed.

(** C3, amended: a record tagged as an entity or as a relation that fails
    its schema makes the whole load throw, and what is thrown is the
    validation error whenever every non-blank line is JSON other than
    [null]; a record tagged neither way is left out of the graph without an
    error. *)
Theorem loadGraph_invalid_tagged_record (data : list line) (v : value) :
  Json v ∈ data ->
  invalid_tagged v ->
  (exists e, fst (loadGraph (Some data)) = Throw e)
  /\ (Forall readable (List.filter nonblank data) ->
      fst (loadGraph (Some data)) = Throw ZodError)
  /\ (forall pre post u,
        u <> VNull -> is_entity_item u = false -> is_relation_item u = false ->
        fst (loadGraph (Some (pre ++ Json u :: post)))
        = fst (loadGraph (Some (pre ++ post)))).
Proof.
  intros Hin Hv. simpl. unfold load_lines.
  pose proof (load_lines_invalid data v Hin Hv) as Hnone. split_and!.
  - destruct (fold_left load_step _ _) as [raw|e]; simpl; [|by eexists].
    rewrite Hnone by done. by eexists.
  - intros Hread. rewrite load_fold_readable in * by done. simpl.
    by rewrite Hnone.
  - intros pre post u. apply load_lines_untagged.
Qed.

Lemma loadGraph_invalid_tagged_record_witness :
  let v := VObj {[ "type" := VStr "entity"; "name" := VNum 5 ]} in
  (exists e, fst (loadGraph (Some [Blank; Json v])) = Throw e)
  /\ (Forall readable (List.filter nonblank [Blank; Json v]) ->
      fst (loadGraph (Some [Blank; Json v])) = Throw ZodError)
  /\ (forall pre post u,
        u <> VNull -> is_entity_item u = false -> is_relation_item u = false ->
        fst (loadGraph (Some (pre ++ Json u :: post)))
        = fst (loadGraph (Some (pre ++ post)))).
Proof.
  intros v. apply (loadGraph_invalid_tagged_record [Blank; Json v] v).
  - apply list_elem_of_In. simpl. auto.
  - left. split; vm_compute; reflexivity.
Defined.

(** ** What each mutation saves *)

Lemma forEach_parse_entities input d :
  forEach_parse EntitySchema_parse Entity_obj input d = (Ok tt, d).
Proof.
  unfold forEach_parse.
  rewrite (proj2 (forallb_forall _ input)); [done|].
  intros e _. apply bool_decide_eq_true. by rewrite EntitySchema_parse_obj.
Qed.

Lemma forEach_parse_relations input d :
  forEach_parse RelationSchema_parse Relation_obj input d = (Ok tt, d).
Proof.
  unfold forEach_parse.
  rewrite (proj2 (forallb_forall _ input)); [done|].
  intros r _. apply bool_decide_eq_true. by rewrite RelationSchema_parse_obj.
Qed.

Section stored.

(** A file [d] that loads, and the graph [g] it holds. *)
Context (d : fs) (g : KnowledgeGraph).
Hypothesis Hload : fst (loadGraph d) = Ok g.

Lemma createEntities_run input :
  createEntities input d
  = (Ok (List.filter (fun e => negb (known_name g e)) input),
     Some (graph_lines
             {| entities :=
                  entities g ++ List.filter (fun e => negb (known_name g e)) input;
                relations := relations g |})).
Proof.
  unfold createEntities, bind.
  by rewrite forEach_parse_entities, (loadGraph_Ok d g Hload), saveGraph_writes.
Qed.

Lemma createRelations_run input :
  createRelations input d
  = (Ok (List.filter (fun r => negb (known_triple g r)) input),
     Some (graph_lines
             {| entities := entities g;
                relations :=
                  relations g ++ List.filter (fun r => negb (known_triple g r)) input |})).
Proof.
  unfold createRelations, bind.
  by rewrite forEach_parse_relations, (loadGraph_Ok d g Hload), saveGraph_writes.
Qed.

Lemma addObservations_run input out g' :
  add_all g input = Ok (out, g') ->
  addObservations input d = (Ok out, Some (graph_lines g')).
Proof.
  intros Hadd. unfold addObservations, bind, lift.
  rewrite (loadGraph_Ok d g Hload), Hadd. simpl. by rewrite saveGraph_writes.
Qed.

Lemma deleteEntities_run entityNames :
  deleteEntities entityNames d
  = (Ok tt, Some (graph_lines (without_entities entityNames g))).
Proof.
  unfold deleteEntities, bind.
  by rewrite (loadGraph_Ok d g Hload), saveGraph_writes.
Qed.

Lemma deleteObservations_run deletions :
  deleteObservations deletions d
  = (Ok tt, Some (graph_lines (fold_left delete_one deletions g))).
Proof.
  unfold deleteObservations, bind.
  by rewrite (loadGraph_Ok d g Hload), saveGraph_writes.
Qed.

Lemma deleteRelations_run input :
  deleteRelations input d
  = (Ok tt, Some (graph_lines (without_relations input g))).
Proof.
  unfold deleteRelations, bind.
  by rewrite forEach_parse_relations, (loadGraph_Ok d g Hload), saveGraph_writes.
Qed.

End stored.

(** ** The uniqueness invariants *)

Lemma same_triple_spec a b : same_triple a b = true <-> triple a = triple b.
Proof.
  unfold same_triple, triple. rewrite !andb_true_iff, !String.eqb_eq.
  split; [intros [[-> ->] ->]; done | intros [= -> -> ->]; done].
Qed.

Lemma known_name_spec g e : known_name g e = true <-> name e ∈ names g.
Proof.
  unfold known_name, names. rewrite existsb_exists, list_elem_of_fmap.
  split.
  - intros (x & Hx%list_elem_of_In & Hn%String.eqb_eq). by exists x.
  - intros (x & Hn & Hx%list_elem_of_In). exists x. by rewrite String.eqb_eq.
Qed.

Lemma known_triple_spec g r : known_triple g r = true <-> triple r ∈ triples g.
Proof.
  unfold known_triple, triples. rewrite existsb_exists, list_elem_of_fmap.
  split.
  - intros (x & Hx%list_elem_of_In & Hn%same_triple_spec). by exists x.
  - intros (x & Hn & Hx%list_elem_of_In). exists x. by rewrite same_triple_spec.
Qed.

(** Membership in a [List.filter], stated with [∈]. *)
Lemma elem_of_filter {A} (p : A -> bool) l x :
  x ∈ List.filter p l <-> x ∈ l /\ p x = true.
Proof. by rewrite !list_elem_of_In, filter_In. Qed.

Lemma elem_of_fmap_filter {A B} (f : A -> B) (p : A -> bool) l y :
  y ∈ f <$> List.filter p l -> y ∈ f <$> l.
Proof.
  rewrite !list_elem_of_fmap. intros (x & -> & Hx). exists x. split; [done|].
  apply list_elem_of_In in Hx. apply filter_In in Hx as [Hx _].
  by apply list_elem_of_In.
Qed.

Lemma NoDup_fmap_filter {A B} (f : A -> B) (p : A -> bool) l :
  NoDup (f <$> l) -> NoDup (f <$> List.filter p l).
Proof.
  induction l as [|x l IH]; simpl; [done|].
  intros [Hx Hl]%NoDup_cons. destruct (p x); simpl; [|auto].
  apply NoDup_cons. split; [|auto].
  intros H. apply Hx. by eapply elem_of_fmap_filter.
Qed.

Lemma add_one_invariant g o r g' :
  add_one g o = Ok (r, g') -> names g' = names g /\ relations g' = relations g.
Proof.
  intros H. destruct (decide (entityName o ∈ names g)) as [Hin|Hin].
  - destruct (add_one_Ok g o Hin) as (r' & g'' & H' & ? & ?).
    rewrite H in H'. by simplify_eq.
  - by rewrite add_one_Throw in H.
Qed.

Lemma add_all_invariant input : forall g out g',
  add_all g input = Ok (out, g') -> names g' = names g /\ relations g' = relations g.
Proof.
  induction input as [|o input IH]; intros g out g' H; simpl in H.
  - by simplify_eq.
  - destruct (add_one g o) as [[r g1]|] eqn:H1; [|done]. simpl in H.
    destruct (add_all g1 input) as [[rs g2]|] eqn:H2; [|done]. simpl in H.
    simplify_eq. apply add_one_invariant in H1 as [Hn1 Hr1].
    apply IH in H2 as [Hn2 Hr2]. split; congruence.
Qed.

Lemma add_all_Ok input : forall g,
  Forall (fun u => entityName u ∈ names g) input ->
  exists out g', add_all g input = Ok (out, g').
Proof.
  induction input as [|o input IH]; intros g H; simpl.
  - by eexists _, _.
  - apply Forall_cons in H as [Ho Hin].
    destruct (add_one_Ok g o Ho) as (r & g1 & -> & Hn & _). simpl.
    destruct (IH g1) as (out & g' & ->); [by rewrite Hn|].
    by eexists _, _.
Qed.

Lemma delete_one_invariant g d :
  names (delete_one g d) = names g /\ relations (delete_one g d) = relations g.
Proof.
  unfold delete_one.
  destruct (list_find (fun e => name e = del_entityName d) (entities g))
    as [[i e]|] eqn:Hf; [|done].
  split; [|done]. apply list_find_Some in Hf as (Hi & _ & _).
  unfold names. simpl. rewrite list_fmap_insert. simpl.
  apply list_insert_id. by rewrite list_lookup_fmap, Hi.
Qed.

Lemma delete_all_invariant deletions : forall g,
  names (fold_left delete_one deletions g) = names g
  /\ relations (fold_left delete_one deletions g) = relations g.
Proof.
  induction deletions as [|d ds IH]; intros g; simpl; [done|].
  destruct (IH (delete_one g d)) as [-> ->]. apply delete_one_invariant.
Qed.

(** C4 as stated fails: [createEntities] and [createRelations] compare the
    input with the graph loaded, not with itself, so a name or a triple given
    twice in one call is saved twice. *)
Lemma create_duplicate_input :
  let g1 := {| entities := [alice; alice]; relations := [] |} in
  let g2 := {| entities := []; relations := [likes; likes] |} in
  fst (loadGraph None) = Ok empty_graph
  /\ invariant empty_graph
  /\ createEntities [alice; alice] None = (Ok [alice; alice], Some (graph_lines g1))
  /\ fst (loadGraph (Some (graph_lines g1))) = Ok g1
  /\ ~ invariant g1
  /\ createRelations [likes; likes] None = (Ok [likes; likes], Some (graph_lines g2))
  /\ fst (loadGraph (Some (graph_lines g2))) = Ok g2
  /\ ~ invariant g2.
Proof.
  split_and!.
  - reflexivity.
  - split; constructor.
  - by rewrite (createEntities_run None empty_graph).
  - vm_compute. reflexivity.
  - intros [H _]. apply NoDup_cons in H as [H _]. apply H. by left.
  - by rewrite (createRelations_run None empty_graph).
  - vm_compute. reflexivity.
  - intros [_ H]. apply NoDup_cons in H as [H _]. apply H. by left.
Qed.

Lemma createEntities_invariant g input :
  invariant g -> NoDup (name <$> input) ->
  invariant {| entities :=
                 entities g ++ List.filter (fun e => negb (known_name g e)) input;
               relations := relations g |}.
Proof.
  intros [Hn Ht] Hin. split; [|done]. unfold names. simpl.
  rewrite fmap_app. apply NoDup_app. split_and!; [done| |by apply NoDup_fmap_filter].
  intros n Hg (e & -> & He)%list_elem_of_fmap.
  apply list_elem_of_In, filter_In in He as [_ He].
  apply negb_true_iff in He. apply not_true_iff_false in He.
  by rewrite known_name_spec in He.
Qed.

Lemma createRelations_invariant g input :
  invariant g -> NoDup (triple <$> input) ->
  invariant {| entities := entities g;
               relations :=
                 relations g ++ List.filter (fun r => negb (known_triple g r)) input |}.
Proof.
  intros [Hn Ht] Hin. split; [done|]. unfold triples. simpl.
  rewrite fmap_app. apply NoDup_app. split_and!; [done| |by apply NoDup_fmap_filter].
  intros t Hg (r & -> & Hr)%list_elem_of_fmap.
  apply list_elem_of_In, filter_In in Hr as [_ Hr].
  apply negb_true_iff in Hr. apply not_true_iff_false in Hr.
  by rewrite known_triple_spec in Hr.
Qed.


(** ** [createEntities] *)

(** What [createEntities] appends and returns: the input entities whose name
    the loaded graph lacks; the entities of the loaded graph stay as they
    are, at the front. *)
Lemma createEntities_spec d g input :
  fst (loadGraph d) = Ok g ->
  exists new,
    createEntities input d
    = (Ok new, Some (graph_lines {| entities := entities g ++ new;
                                    relations := relations g |}))
    /\ (forall e, e ∈ new <-> e ∈ input /\ name e ∉ names g).
Proof.
  intros Hl. eexists. split; [by apply createEntities_run|].
  intros e. rewrite elem_of_filter, negb_true_iff.
  by rewrite <- not_true_iff_false, known_name_spec.
Qed.

Lemma names_strip g : names (strip_graph g) = names g.
Proof.
  unfold names, strip_graph. simpl. rewrite <- list_fmap_compose.
  by apply list_fmap_ext.
Qed.

(** Creating an entity that has no [type] of its own a second time adds
    nothing. *)
Lemma createEntities_twice d g e :
  fst (loadGraph d) = Ok g ->
  entity_extra e !! "type" = None ->
  fst ((let* _ := createEntities [e] in createEntities [e]) d) = Ok [].
Proof.
  intros Hl He. unfold bind at 1. rewrite (createEntities_run d g) by done.
  set (g1 := {| entities := _; relations := _ |}).
  assert (no_own_type g1) as Hg1.
  { destruct (clean_no_own_type g (loadGraph_clean d g Hl)) as [H1 H2].
    split; [|done]. subst g1. simpl. apply Forall_app. split; [done|].
    destruct (negb (known_name g e)); by repeat constructor. }
  rewrite (createEntities_run _ (strip_graph g1)).
  2:{ simpl. by apply load_saved. }
  simpl. assert (known_name (strip_graph g1) e = true) as ->; [|done].
  apply known_name_spec. rewrite names_strip. unfold names. subst g1. simpl.
  rewrite fmap_app. apply elem_of_app.
  destruct (known_name g e) eqn:Hk; simpl.
  - left. by apply known_name_spec.
  - right. apply list_elem_of_In. simpl. auto.
Qed.

(** C5, at an entity with a [type] of its own: the first [createEntities]
    writes a record tagged ["note"], which [loadGraph] leaves out, so the
    second call with the same entity finds the name absent and returns the
    entity again instead of the empty list. *)
Theorem createEntities_twice_own_type :
  fst ((let* _ := createEntities [typed_entity "note"] in
        createEntities [typed_entity "note"]) None)
  = Ok [typed_entity "note"].
Proof. vm_compute. reflexivity. Qed.

(** ** [createRelations] *)






(** ** [deleteEntities] *)

Lemma Array_includes_spec l x : Array_includes l x = true <-> x ∈ l.
Proof.
  unfold Array_includes. rewrite existsb_exists. split.
  - intros (y & Hy%list_elem_of_In & ->%String.eqb_eq). done.
  - intros Hx%list_elem_of_In. exists x. by rewrite String.eqb_refl.
Qed.

Lemma Array_includes_false l x : Array_includes l x = false <-> x ∉ l.
Proof. by rewrite <- not_true_iff_false, Array_includes_spec. Qed.

Lemma Array_includes_app l k x :
  Array_includes (l ++ k) x = Array_includes l x || Array_includes k x.
Proof. unfold Array_includes. apply existsb_app. Qed.

Lemma Forall_filter {A} (P : A -> Prop) (p : A -> bool) l :
  Forall P l -> Forall P (List.filter p l).
Proof.
  rewrite !Forall_forall. intros H x Hx%list_elem_of_In%filter_In.
  apply H, list_elem_of_In, Hx.
Qed.

Lemma without_entities_clean ns g : clean g -> clean (without_entities ns g).
Proof. intros [He Hr]. split; simpl; by apply Forall_filter. Qed.

Lemma without_entities_absent g ns missing :
  Forall (absent g) missing ->
  without_entities (ns ++ missing) g = without_entities ns g.
Proof.
  intros Hm. rewrite Forall_forall in Hm.
  assert (forall x, Array_includes missing x = true -> absent g x) as Hin.
  { intros x Hx%Array_includes_spec. auto. }
  unfold without_entities. f_equal.
  - apply filter_ext_in. intros e He%list_elem_of_In.
    rewrite Array_includes_app.
    destruct (Array_includes missing (name e)) eqn:Hx; [|by rewrite orb_false_r].
    destruct (Hin _ Hx) as [Hno _]. exfalso. apply Hno.
    by apply list_elem_of_fmap_2.
  - apply filter_ext_in. intros r Hr%list_elem_of_In.
    rewrite !Array_includes_app.
    destruct (Array_includes missing (from r)) eqn:Hf.
    { destruct (Hin _ Hf) as [_ Hno]. by destruct (Hno r Hr). }
    destruct (Array_includes missing (to r)) eqn:Ht.
    { destruct (Hin _ Ht) as [_ Hno]. by destruct (Hno r Hr). }
    by rewrite !orb_false_r.
Qed.

(** C7: [deleteEntities] returns without an error and rewrites the file to
    the graph without the entities named and without the relations that
    start or end at a name of the list; reading the file afterwards gives
    that graph, in which no relation touches a deleted name.  Names that
    occur nowhere in the graph change nothing. *)
Theorem deleteEntities_spec (d : fs) (g : KnowledgeGraph)
    (entityNames : list string) :
  fst (loadGraph d) = Ok g ->
  exists g',
    deleteEntities entityNames d = (Ok tt, Some (graph_lines g'))
    /\ readGraph (snd (deleteEntities entityNames d))
       = (Ok g', Some (graph_lines g'))
    /\ (forall e, e ∈ entities g' <-> e ∈ entities g /\ name e ∉ entityNames)
    /\ (forall r, r ∈ relations g' <->
                  r ∈ relations g /\ (from r ∉ entityNames) /\ to r ∉ entityNames)
    /\ (forall missing, Forall (absent g) missing ->
          deleteEntities (entityNames ++ missing) d
          = deleteEntities entityNames d).
Proof.
  intros Hl. exists (without_entities entityNames g).
  rewrite (deleteEntities_run d g) by done. split_and!.
  - done.
  - simpl. unfold readGraph, loadGraph.
    rewrite load_saved, strip_clean; [done| |];
      eauto using without_entities_clean, loadGraph_clean, clean_no_own_type.
  - intros e. simpl.
    rewrite elem_of_filter, negb_true_iff.
    by rewrite Array_includes_false.
  - intros r. simpl.
    rewrite elem_of_filter, andb_true_iff, !negb_true_iff.
    by rewrite !Array_includes_false.
  - intros missing Hm. rewrite (deleteEntities_run d g) by done.
    by rewrite without_entities_absent.
Qed.

Lemma deleteEntities_spec_witness :
  exists g',
    deleteEntities ["Bob"; "Carol"] alice_file = (Ok tt, Some (graph_lines g'))
    /\ readGraph (snd (deleteEntities ["Bob"; "Carol"] alice_file))
       = (Ok g', Some (graph_lines g'))
    /\ (forall e, e ∈ entities g' <->
                  e ∈ entities alice_graph /\ name e ∉ ["Bob"; "Carol"])
    /\ (forall r, r ∈ relations g' <->
                  r ∈ relations alice_graph
                  /\ (from r ∉ ["Bob"; "Carol"]) /\ to r ∉ ["Bob"; "Carol"])
    /\ (forall missing, Forall (absent alice_graph) missing ->
          deleteEntities (["Bob"; "Carol"] ++ missing) alice_file
          = deleteEntities ["Bob"; "Carol"] alice_file).
Proof.
  apply (deleteEntities_spec alice_file alice_graph ["Bob"; "Carol"]).
  vm_compute. reflexivity.
Defined.

(** ** [searchNodes] and [openNodes] *)

Lemma starts_with_spec q : forall s,
  starts_with q s = true <-> exists post, s = q +:+ post.
Proof.
  induction q as [|a q IH]; intros s; simpl.
  - split; [by exists s | done].
  - destruct s as [|b s].
    + split; [done | by intros [post ?]].
    + rewrite andb_true_iff, Ascii.eqb_eq, IH. split.
      * intros [-> [post ->]]. by exists post.
      * intros [post [= -> ->]]. eauto.
Qed.

Lemma String_includes_unfold s q :
  String_includes s q =
  starts_with q s ||
  match s with
  | EmptyString => false
  | String _ s' => String_includes s' q
  end.
Proof. by destruct s. Qed.

(** [s.includes(q)] holds exactly when [q] occurs in [s]. *)
Lemma String_includes_spec q : forall s,
  String_includes s q = true <-> exists pre post, s = pre +:+ q +:+ post.
Proof.
  intros s. split.
  - induction s as [|c s IH]; rewrite String_includes_unfold, orb_true_iff.
    + intros [[post ->]%starts_with_spec|]; [|done]. by exists "", post.
    + intros [[post ->]%starts_with_spec|H]; [by exists "", post|].
      destruct (IH H) as (pre & post & ->). by exists (String c pre), post.
  - intros (pre & post & ->). induction pre as [|c pre IH].
    + rewrite String_includes_unfold, orb_true_iff. left.
      apply starts_with_spec. by exists post.
    + rewrite String_includes_unfold, orb_true_iff. right. exact IH.
Qed.

Lemma matches_spec {SC : StringCase} q e : matches q e = true <-> matches_query q e.
Proof.
  unfold matches, matches_query, occurs_lowered.
  rewrite !orb_true_iff, !String_includes_spec, existsb_exists.
  split.
  - intros [[H|H]|(o & Ho%list_elem_of_In & H%String_includes_spec)]; eauto.
  - intros [H|[H|(o & Ho%list_elem_of_In & H%String_includes_spec)]]; eauto.
Qed.

Lemma toLowerCase_empty {SC : StringCase} : toLowerCase "" = "".
Proof. by rewrite toLowerCase_ascii. Qed.

Lemma matches_empty {SC : StringCase} e : matches "" e = true.
Proof.
  unfold matches. rewrite toLowerCase_empty.
  rewrite (String_includes_unfold (toLowerCase (name e))). done.
Qed.

(** *** Case, in the ASCII range *)

Lemma elem_of_all_ascii a : a ∈ all_ascii.
Proof.
  unfold all_ascii. rewrite <- (ascii_nat_embedding a).
  apply list_elem_of_fmap_2, list_elem_of_In, in_seq.
  pose proof (nat_ascii_bounded a). lia.
Qed.

Lemma same_letter_table :
  forallb (fun a =>
    forallb (fun b =>
      Bool.eqb (same_letter a b) (Ascii.eqb (lower_ascii a) (lower_ascii b)))
      all_ascii) all_ascii = true.
Proof. vm_compute. reflexivity. Qed.

(** Two characters are the same letter exactly when lower-casing makes them
    equal. *)
Lemma same_letter_spec a b :
  same_letter a b = true <-> lower_ascii a = lower_ascii b.
Proof.
  pose proof same_letter_table as Ht. rewrite forallb_forall in Ht.
  specialize (Ht a (proj1 (list_elem_of_In _ _) (elem_of_all_ascii a))).
  rewrite forallb_forall in Ht.
  specialize (Ht b (proj1 (list_elem_of_In _ _) (elem_of_all_ascii b))).
  apply Bool.eqb_prop in Ht. rewrite Ht. apply Ascii.eqb_eq.
Qed.

Lemma same_letters_spec a : forall b,
  same_letters a b = true <-> ascii_lower a = ascii_lower b.
Proof.
  induction a as [|x a IH]; intros [|y b]; simpl; try done.
  rewrite andb_true_iff, same_letter_spec, IH. split.
  - by intros [-> ->].
  - by intros [= -> ->].
Qed.

Lemma append_cons c (a b : string) : String c a +:+ b = String c (a +:+ b).
Proof. reflexivity. Qed.

Lemma ascii_lower_app a b : ascii_lower (a +:+ b) = ascii_lower a +:+ ascii_lower b.
Proof.
  induction a as [|x a IH]; [done|].
  rewrite append_cons. simpl. by rewrite IH.
Qed.

Lemma ascii_lower_split u : forall s v,
  ascii_lower s = u +:+ v ->
  exists s1 s2, s = s1 +:+ s2 /\ ascii_lower s1 = u /\ ascii_lower s2 = v.
Proof.
  induction u as [|x u IH]; intros s v Hs.
  - by exists "", s.
  - rewrite append_cons in Hs. destruct s as [|y s]; [done|].
    simpl in Hs. injection Hs as Hy Hs.
    destruct (IH s v Hs) as (s1 & s2 & -> & <- & <-).
    exists (String y s1), s2. split_and!; [done| |done].
    simpl. by rewrite Hy.
Qed.

(** On any text, [q] is a case-insensitive substring of [s] exactly when the
    ASCII lower-casing of [q] occurs in that of [s]. *)
Lemma ci_substring_spec q s :
  ci_substring q s <->
  exists pre post, ascii_lower s = pre +:+ ascii_lower q +:+ post.
Proof.
  split.
  - intros (pre & sub & post & -> & Hsub%same_letters_spec).
    exists (ascii_lower pre), (ascii_lower post).
    by rewrite !ascii_lower_app, Hsub.
  - intros (pre & post & Hs).
    apply ascii_lower_split in Hs as (s1 & s' & -> & <- & Hs').
    apply ascii_lower_split in Hs' as (s2 & s3 & -> & Hs2 & <-).
    exists s1, s2, s3. split; [done|]. by apply same_letters_spec.
Qed.

(** In the ASCII range the test of the code is case-insensitive substring
    search. *)
Lemma occurs_lowered_ascii {SC : StringCase} q s :
  ascii_only q = true -> ascii_only s = true ->
  occurs_lowered q s <-> ci_substring q s.
Proof.
  intros Hq Hs. unfold occurs_lowered.
  by rewrite ci_substring_spec, !toLowerCase_ascii.
Qed.

Lemma matches_query_ascii {SC : StringCase} q e :
  ascii_only q = true -> ascii_entity e -> matches_query q e <-> ci_matches q e.
Proof.
  intros Hq (Hn & Ht & Ho). unfold matches_query, ci_matches.
  rewrite !occurs_lowered_ascii by done. rewrite Forall_forall in Ho.
  split; (intros [H'|[H'|(o & Hin & H')]];
    [by left | by right; left | right; right; exists o; split; [done|]]).
  - by apply occurs_lowered_ascii in H'; auto.
  - by apply occurs_lowered_ascii; auto.
Qed.

Lemma between_spec es rs r :
  r ∈ between es rs <->
  r ∈ rs /\ from r ∈ name <$> es /\ to r ∈ name <$> es.
Proof.
  unfold between. rewrite elem_of_filter, andb_true_iff.
  by rewrite !bool_decide_eq_true, !elem_of_list_to_set.
Qed.

Lemma between_nil rs : between [] rs = [].
Proof.
  unfold between. apply filter_none, Forall_true. intros r. simpl.
  rewrite (bool_decide_eq_false_2 (from r ∈ _)); [done|]. apply not_elem_of_empty.
Qed.

(** C8 as stated fails: the capital sigma is a substring of the name as it
    is written, so a case-insensitive substring too, yet the search for it
    returns nothing: lower-casing the name turns its last letter into the
    final small sigma and the query into the small sigma. *)
Lemma searchNodes_final_sigma :
  let d := Some (graph_lines {| entities := [alpha_sigma]; relations := [] |}) in
  fst (loadGraph d) = Ok {| entities := [alpha_sigma]; relations := [] |}
  /\ name alpha_sigma = "Α" +:+ "Σ" +:+ ""
  /\ ci_substring "Σ" (name alpha_sigma)
  /\ toLowerCase (name alpha_sigma) = "ας"
  /\ toLowerCase "Σ" = "σ"
  /\ fst (searchNodes "Σ" d) = Ok empty_graph.
Proof.
  split_and!; try (vm_compute; reflexivity).
  exists "Α", "Σ", "". split; vm_compute; reflexivity.
Qed.

(** C8, amended: [searchNodes(q)] returns the entities for which the
    lower-cased [q] occurs in the lower-cased name, type or some
    observation, and the relations both of whose endpoints name a returned
    entity; with the empty query every entity is returned.  For a query and
    an entity in the ASCII range the entity is returned exactly when [q] is
    a case-insensitive substring of its name, type or some observation. *)
Theorem searchNodes_spec {SC : StringCase} (d : fs) (g : KnowledgeGraph) (q : string) :
  fst (loadGraph d) = Ok g ->
  exists res,
    searchNodes q d = (Ok res, d)
    /\ (forall e, e ∈ entities res <-> e ∈ entities g /\ matches_query q e)
    /\ (ascii_only q = true ->
        forall e, ascii_entity e ->
                  (e ∈ entities res <-> e ∈ entities g /\ ci_matches q e))
    /\ (forall r, r ∈ relations res <->
                  r ∈ relations g /\ from r ∈ names res /\ to r ∈ names res)
    /\ (forall r, r ∈ relations res -> from r ∈ names res /\ to r ∈ names res)
    /\ (q = "" -> entities res = entities g).
Proof.
  intros Hl%loadGraph_Ok. eexists. unfold searchNodes, bind. rewrite Hl.
  split; [reflexivity|]. simpl. split_and!.
  - intros e. by rewrite elem_of_filter, matches_spec.
  - intros Hq e He. by rewrite elem_of_filter, matches_spec, matches_query_ascii.
  - intros r. apply between_spec.
  - intros r Hr%between_spec. tauto.
  - intros ->. apply filter_all, Forall_true, matches_empty.
Qed.

Lemma searchNodes_spec_witness :
  exists res,
    searchNodes "TEA" alice_file = (Ok res, alice_file)
    /\ (forall e, e ∈ entities res <->
                  e ∈ entities alice_graph /\ matches_query "TEA" e)
    /\ (ascii_only "TEA" = true ->
        forall e, ascii_entity e ->
                  (e ∈ entities res <-> e ∈ entities alice_graph /\ ci_matches "TEA" e))
    /\ (forall r, r ∈ relations res <->
                  r ∈ relations alice_graph
                  /\ from r ∈ names res /\ to r ∈ names res)
    /\ (forall r, r ∈ relations res -> from r ∈ names res /\ to r ∈ names res)
    /\ ("TEA" = "" -> entities res = entities alice_graph).
Proof.
  apply (searchNodes_spec alice_file alice_graph "TEA").
  vm_compute. reflexivity.
Defined.

(** The query matches whatever the case of the stored text, also outside the
    ASCII range where lower-casing knows the letters. *)
Example searchNodes_ecole :
  fst (searchNodes "école"
         (Some (graph_lines
                  {| entities :=
                       [{| name := "École"; entityType := "school";
                           observations := []; entity_extra := ∅ |}];
                     relations := [] |})))
  = Ok {| entities :=
            [{| name := "École"; entityType := "school";
                observations := []; entity_extra := ∅ |}];
          relations := [] |}.
Proof. vm_compute. reflexivity. Qed.

Example searchNodes_tea :
  fst (searchNodes "TEA" alice_file)
  = Ok {| entities := [alice]; relations := [] |}.
Proof. vm_compute. reflexivity. Qed.

(** C9 as stated fails: with the empty query [searchNodes] returns every
    entity, but of the relations only those between entities of the graph,
    so a graph with a relation whose endpoints are not entities is not
    returned in full. *)
Lemma searchNodes_empty_query_not_full :
  fst (loadGraph (Some (graph_lines dangling_graph))) = Ok dangling_graph
  /\ fst (openNodes [] (Some (graph_lines dangling_graph))) = Ok empty_graph
  /\ fst (searchNodes "" (Some (graph_lines dangling_graph))) = Ok empty_graph
  /\ fst (searchNodes "" (Some (graph_lines dangling_graph)))
     <> Ok dangling_graph.
Proof.
  split_and!; try (vm_compute; reflexivity).
  vm_compute. discriminate.
Qed.

(** C9, amended: [openNodes] keeps an entity only if its name is a member
    of the list given, so with the empty list it returns the empty graph;
    [searchNodes] with the empty query returns every entity and the
    relations between entities of the graph, which is the full graph when
    every relation endpoint names an entity. *)
Theorem openNodes_empty_names {SC : StringCase} (d : fs) (g : KnowledgeGraph) :
  fst (loadGraph d) = Ok g ->
  openNodes [] d = (Ok empty_graph, d)
  /\ (forall ns res, fst (openNodes ns d) = Ok res ->
        forall e, e ∈ entities res <-> e ∈ entities g /\ name e ∈ ns)
  /\ searchNodes "" d
     = (Ok {| entities := entities g;
              relations := between (entities g) (relations g) |}, d)
  /\ (closed g -> searchNodes "" d = (Ok g, d)).
Proof.
  intros Hl%loadGraph_Ok.
  assert (searchNodes "" d
          = (Ok {| entities := entities g;
                   relations := between (entities g) (relations g) |}, d)) as Hs.
  { unfold searchNodes, bind. rewrite Hl.
    rewrite (filter_all (matches "")); [done|].
    apply Forall_true, matches_empty. }
  split_and!.
  - unfold openNodes, bind. rewrite Hl.
    rewrite filter_none by (by apply Forall_true).
    by rewrite between_nil.
  - intros ns res. unfold openNodes, bind. rewrite Hl. simpl.
    intros [= <-] e. simpl.
    by rewrite elem_of_filter, Array_includes_spec.
  - exact Hs.
  - intros Hc. rewrite Hs. destruct g as [es rs]. simpl in *. do 3 f_equal.
    unfold between. apply filter_all.
    eapply Forall_impl; [exact Hc|]. intros r [Hf Ht]. simpl.
    apply andb_true_iff. rewrite !bool_decide_eq_true, !elem_of_list_to_set.
    done.
Qed.

Lemma openNodes_empty_names_witness :
  openNodes [] alice_file = (Ok empty_graph, alice_file)
  /\ (forall ns res, fst (openNodes ns alice_file) = Ok res ->
        forall e, e ∈ entities res <-> e ∈ entities alice_graph /\ name e ∈ ns)
  /\ searchNodes "" alice_file
     = (Ok {| entities := entities alice_graph;
              relations := between (entities alice_graph) (relations alice_graph) |},
        alice_file)
  /\ (closed alice_graph -> searchNodes "" alice_file = (Ok alice_graph, alice_file)).
Proof.
  apply (openNodes_empty_names alice_file alice_graph).
  vm_compute. reflexivity.
Defined.

(** ** The properties of the objects handed out *)

Lemma clean_filter g (p : Entity -> bool) (q : Relation -> bool) :
  clean g ->
  clean {| entities := List.filter p (entities g);
           relations := List.filter q (relations g) |}.
Proof. intros [He Hr]. split; simpl; by apply Forall_filter. Qed.

Lemma searchNodes_clean {SC : StringCase} q d res :
  fst (searchNodes q d) = Ok res -> clean res.
Proof.
  unfold searchNodes, bind. destruct (loadGraph d) as [[g|e] d'] eqn:Hl; [|done].
  simpl. intros [= <-]. unfold between. apply clean_filter.
  apply (loadGraph_clean d). by rewrite Hl.
Qed.

Lemma openNodes_clean ns d res : fst (openNodes ns d) = Ok res -> clean res.
Proof.
  unfold openNodes, bind. destruct (loadGraph d) as [[g|e] d'] eqn:Hl; [|done].
  simpl. intros [= <-]. unfold between. apply clean_filter.
  apply (loadGraph_clean d). by rewrite Hl.
Qed.

Lemma clean_fields g :
  clean g ->
  (forall e, e ∈ entities g ->
     dom (Entity_obj e) = {[ "name"; "entityType"; "observations" ]})
  /\ (forall r, r ∈ relations g ->
        dom (Relation_obj r) = {[ "from"; "to"; "relationType" ]}).
Proof.
  intros [He Hr]. rewrite Forall_forall in He. rewrite Forall_forall in Hr. split.
  - intros e Hin. unfold Entity_obj. rewrite (He e Hin).
    rewrite !dom_insert_L, dom_empty_L. set_solver.
  - intros r Hin. unfold Relation_obj. rewrite (Hr r Hin).
    rewrite !dom_insert_L, dom_empty_L. set_solver.
Qed.

(** C10: in a graph returned by [loadGraph], and so by [readGraph],
    [searchNodes] and [openNodes], the own properties of an entity are
    [name], [entityType] and [observations] and those of a relation are
    [from], [to] and [relationType], whatever else the stored records hold;
    no [type] property is left. *)
Theorem loaded_objects_have_schema_fields {SC : StringCase} (d : fs)
    (g : KnowledgeGraph) :
  fst (loadGraph d) = Ok g
  \/ fst (readGraph d) = Ok g
  \/ (exists q, fst (searchNodes q d) = Ok g)
  \/ (exists ns, fst (openNodes ns d) = Ok g) ->
  (forall e, e ∈ entities g ->
     dom (Entity_obj e) = {[ "name"; "entityType"; "observations" ]}
     /\ Entity_obj e !! "type" = None)
  /\ (forall r, r ∈ relations g ->
        dom (Relation_obj r) = {[ "from"; "to"; "relationType" ]}
        /\ Relation_obj r !! "type" = None).
Proof.
  intros H.
  assert (clean g) as Hc.
  { destruct H as [H|[H|[[q H]|[ns H]]]];
      eauto using loadGraph_clean, searchNodes_clean, openNodes_clean. }
  destruct (clean_fields g Hc) as [He Hr]. destruct Hc as [Hce Hcr].
  rewrite Forall_forall in Hce. rewrite Forall_forall in Hcr. split.
  - intros e Hin. split; [auto|].
    rewrite Entity_obj_other by done. by rewrite (Hce e Hin).
  - intros r Hin. split; [auto|].
    rewrite Relation_obj_other by done. by rewrite (Hcr r Hin).
Qed.

Lemma loaded_objects_have_schema_fields_witness :
  (forall e, e ∈ entities {| entities := [alice]; relations := [] |} ->
     dom (Entity_obj e) = {[ "name"; "entityType"; "observations" ]}
     /\ Entity_obj e !! "type" = None)
  /\ (forall r, r ∈ relations {| entities := [alice]; relations := [] |} ->
        dom (Relation_obj r) = {[ "from"; "to"; "relationType" ]}
        /\ Relation_obj r !! "type" = None).
Proof.
  apply (loaded_objects_have_schema_fields coloured_file).
  left. vm_compute. reflexivity.
Defined.

(** ** Scenarios *)

(** Create, then open: [Bob] is not in the graph and is left out without an
    error. *)
Example create_then_open :
  fst ((let* added := createEntities [alice] in
        let* opened := openNodes ["Alice"; "Bob"] in
        ret (added, opened)) None)
  = Ok ([alice], {| entities := [alice]; relations := [] |}).
Proof. vm_compute. reflexivity. Qed.

(** A relation the graph holds is not added again. *)
Example relation_dedup :
  fst ((let* added := createRelations [knows] in
        let* graph := readGraph in
        ret (added, relations graph)) alice_file)
  = Ok ([], [knows]).
Proof. vm_compute. reflexivity. Qed.

(** Observations already present are not added again; an observation given
    twice in one update is added twice. *)
Example add_observations :
  fst ((let* added := addObservations
                        [{| entityName := "Alice";
                            contents := ["likes tea"; "runs"; "runs"] |}] in
        let* graph := readGraph in
        ret (added, observations <$> entities graph)) alice_file)
  = Ok ([{| added_entityName := "Alice"; addedObservations := ["runs"; "runs"] |}],
        [["likes tea"; "runs"; "runs"]; []]).
Proof. vm_compute. reflexivity. Qed.

(** [deleteObservations] skips an entity the graph lacks. *)
Example delete_observations :
  fst ((let* _ := deleteObservations
                    [{| del_entityName := "Ghost"; del_observations := ["x"] |};
                     {| del_entityName := "Alice";
                        del_observations := ["likes tea"] |}] in
        readGraph) alice_file)
  = Ok {| entities := [set_observations alice []; bob]; relations := [knows] |}.
Proof. vm_compute. reflexivity. Qed.

(** Deleting an entity removes the relations that touch it. *)
Example delete_cascade :
  fst ((let* _ := deleteEntities ["Bob"] in readGraph) alice_file)
  = Ok {| entities := [alice]; relations := [] |}.
Proof. vm_compute. reflexivity. Qed.

(** * Further properties *)

(** ** The round trip, where it holds *)

(** X1: for a graph none of whose objects has a [type] property of its own,
    [saveGraph] followed by [loadGraph] returns the entities and the
    relations of the graph in their order, each reduced to the properties of
    its schema, whatever the file held before; the graph returned equals the
    graph saved as sets. *)
Theorem saveGraph_loadGraph_round_trip (g : KnowledgeGraph) (d : fs) :
  no_own_type g ->
  (let* _ := saveGraph g in loadGraph) d
  = (Ok (strip_graph g), Some (graph_lines g))
  /\ same_graph g (strip_graph g)
  /\ (clean g -> strip_graph g = g).
Proof.
  intros Hg. unfold bind. rewrite saveGraph_writes. simpl.
  rewrite load_saved by done.
  split_and!; [done | apply same_graph_strip | apply strip_clean].
Qed.

Lemma saveGraph_loadGraph_round_trip_witness :
  (let* _ := saveGraph coloured_graph in loadGraph) alice_file
  = (Ok (strip_graph coloured_graph), Some (graph_lines coloured_graph))
  /\ same_graph coloured_graph (strip_graph coloured_graph)
  /\ (clean coloured_graph -> strip_graph coloured_graph = coloured_graph).
Proof.
  apply (saveGraph_loadGraph_round_trip coloured_graph alice_file).
  split; repeat constructor.
Defined.

(** ** More on [createEntities] *)

Lemma filter_sublist {A} (p : A -> bool) l : List.filter p l `sublist_of` l.
Proof.
  induction l as [|x l IH]; simpl; [done|].
  destruct (p x); [by apply sublist_skip | by apply sublist_cons].
Qed.



(** X3: on a file that loads, creating entities that have no [type] of
    their own makes each of their names a name of the stored graph, and
    creating the same entities again returns the empty list. *)
Theorem createEntities_idempotent (d : fs) (g : KnowledgeGraph)
    (input : list Entity) :
  fst (loadGraph d) = Ok g ->
  Forall (fun e => entity_extra e !! "type" = None) input ->
  (exists h, fst (readGraph (snd (createEntities input d))) = Ok h
             /\ forall e, e ∈ input -> name e ∈ names h)
  /\ fst ((let* _ := createEntities input in createEntities input) d) = Ok [].
Proof.
  intros Hl Hin. unfold bind at 1. rewrite (createEntities_run d g) by done.
  set (g1 := {| entities := _; relations := _ |}).
  assert (no_own_type g1) as Hg1.
  { destruct (clean_no_own_type g (loadGraph_clean d g Hl)) as [H1 H2].
    split; [|done]. subst g1. simpl. apply Forall_app. split; [done|].
    by apply Forall_filter. }
  assert (forall e, e ∈ input -> name e ∈ names (strip_graph g1)) as Hnames.
  { intros e He. rewrite names_strip. unfold names. subst g1. simpl.
    rewrite fmap_app, elem_of_app.
    destruct (known_name g e) eqn:Hk.
    - left. by apply known_name_spec.
    - right. apply list_elem_of_fmap_2, elem_of_filter. by rewrite Hk. }
  assert (fst (loadGraph (Some (graph_lines g1))) = Ok (strip_graph g1)) as Hl1.
  { simpl. by apply load_saved. }
  split.
  - exists (strip_graph g1). done.
  - rewrite (createEntities_run _ (strip_graph g1)) by done. simpl.
    f_equal. apply filter_none, Forall_forall. intros e He.
    apply negb_false_iff, known_name_spec. auto.
Qed.

Lemma createEntities_idempotent_witness :
  (exists h, fst (readGraph (snd (createEntities [alice; bob] None))) = Ok h
             /\ forall e, e ∈ [alice; bob] -> name e ∈ names h)
  /\ fst ((let* _ := createEntities [alice; bob] in
           createEntities [alice; bob]) None) = Ok [].
Proof.
  apply (createEntities_idempotent None empty_graph [alice; bob]).
  - reflexivity.
  - repeat constructor.
Defined.

(** ** More on [addObservations] *)

Lemma list_find_insert_same {A} (P : A -> Prop) `{!forall x, Decision (P x)}
    (l : list A) i x y :
  list_find P l = Some (i, x) -> P y -> list_find P (<[i:=y]> l) = Some (i, y).
Proof.
  intros (Hi & _ & Hleast)%list_find_Some Hy. apply list_find_Some.
  split_and!; [|done|].
  - apply list_lookup_insert_eq. by eapply lookup_lt_Some.
  - intros j z Hj Hlt. rewrite list_lookup_insert_ne in Hj by lia. eauto.
Qed.

Lemma list_find_insert_other {A} (Q : A -> Prop) `{!forall x, Decision (Q x)}
    (l : list A) i x y :
  l !! i = Some x -> ~ Q x -> ~ Q y -> list_find Q (<[i:=y]> l) = list_find Q l.
Proof.
  intros Hi Hx Hy. destruct (list_find Q l) as [[j z]|] eqn:Hf.
  - apply list_find_Some in Hf as (Hj & Hz & Hleast).
    assert (j <> i) by (intros ->; congruence).
    apply list_find_Some. split_and!; [|done|].
    + by rewrite list_lookup_insert_ne.
    + intros k w Hk Hlt. destruct (decide (k = i)) as [->|Hne].
      * rewrite list_lookup_insert_eq in Hk by (by eapply lookup_lt_Some).
        by simplify_eq.
      * rewrite list_lookup_insert_ne in Hk by done. eauto.
  - apply list_find_None. apply list_find_None in Hf. by apply Forall_insert.
Qed.

Lemma found_Some_name g n e : found g n = Some e -> name e = n.
Proof.
  unfold found. intros ([i e'] & Hf & ->)%fmap_Some.
  by apply list_find_Some in Hf as (_ & ? & _).
Qed.

Lemma found_is_Some g n : is_Some (found g n) <-> n ∈ names g.
Proof.
  unfold found, names. rewrite fmap_is_Some. split.
  - intros [[i e] (Hi & <- & _)%list_find_Some].
    apply list_elem_of_fmap_2. by eapply list_elem_of_lookup_2.
  - intros (e & -> & He)%list_elem_of_fmap.
    by apply (list_find_elem_of _ _ e).
Qed.

Lemma obs_of_absent g n : n ∉ names g -> obs_of g n = [].
Proof.
  intros Hn. unfold obs_of. destruct (found g n) eqn:Hf; [|done].
  destruct Hn. apply found_is_Some. by rewrite Hf.
Qed.

(** Replacing the entity found by one of the same name. *)
Lemma found_insert g i e e' n :
  list_find (fun x => name x = n) (entities g) = Some (i, e) ->
  name e' = n ->
  let g' := {| entities := <[i:=e']> (entities g); relations := relations g |} in
  found g' n = Some e' /\ forall n', n' <> n -> found g' n' = found g n'.
Proof.
  intros Hf He' g'. split.
  - unfold found. simpl. by rewrite (list_find_insert_same _ _ i e e').
  - intros n' Hn'. unfold found. simpl.
    pose proof Hf as (Hi & He & _)%list_find_Some.
    rewrite (list_find_insert_other _ _ i e e'); [done..| |]; congruence.
Qed.

(** One update of the batch, on a graph that has the entity. *)
Lemma add_one_step g o r g' :
  add_one g o = Ok (r, g') ->
  r = {| added_entityName := entityName o;
         addedObservations :=
           List.filter (fun c => negb (Array_includes (obs_of g (entityName o)) c))
             (contents o) |}
  /\ obs_of g' (entityName o) = obs_of g (entityName o) ++ addedObservations r
  /\ (forall n, n <> entityName o -> obs_of g' n = obs_of g n)
  /\ Forall2 same_but_observations (entities g) (entities g')
  /\ relations g' = relations g.
Proof.
  unfold add_one.
  destruct (list_find (fun e => name e = entityName o) (entities g))
    as [[i e]|] eqn:Hf; [|done].
  intros [= <- <-].
  pose proof Hf as (Hi & He & _)%list_find_Some.
  edestruct (found_insert g i e
               (set_observations e
                  (observations e
                   ++ List.filter (fun c => negb (Array_includes (observations e) c))
                        (contents o))) (entityName o) Hf He) as [Hsame Hother].
  assert (obs_of g (entityName o) = observations e) as Hobs.
  { unfold obs_of, found. by rewrite Hf. }
  split_and!.
  - by rewrite Hobs.
  - unfold obs_of at 1. rewrite Hsame. simpl. by rewrite Hobs.
  - intros n Hn. unfold obs_of. by rewrite Hother.
  - simpl. rewrite <- (list_insert_id (entities g) i e Hi) at 1.
    apply Forall2_insert; [|done].
    apply Forall_Forall2_diag, Forall_true. by intros x.
  - done.
Qed.

Lemma same_but_observations_trans e1 e2 e3 :
  same_but_observations e1 e2 -> same_but_observations e2 e3 ->
  same_but_observations e1 e3.
Proof. intros (?&?&?) (?&?&?). split_and!; congruence. Qed.

Lemma same_but_observations_clean g g' :
  Forall2 same_but_observations (entities g) (entities g') ->
  relations g' = relations g -> clean g -> clean g'.
Proof.
  intros He Hr [Hce Hcr]. split; [|by rewrite Hr].
  induction He as [|e e' es es' (_ & _ & Hx) _ IH]; [done|].
  apply Forall_cons in Hce as [Hce1 Hce2]. constructor; [congruence|auto].
Qed.

Lemma prefix_elem_of {A} (l k : list A) x : l `prefix_of` k -> x ∈ l -> x ∈ k.
Proof. intros [k' ->] Hx. apply elem_of_app. by left. Qed.

(** The whole batch, on a graph that has every entity named. *)
Lemma add_all_steps input : forall g out g',
  add_all g input = Ok (out, g') ->
  added_entityName <$> out = entityName <$> input
  /\ (forall n, obs_of g n `prefix_of` obs_of g' n)
  /\ (forall n, n ∉ entityName <$> input -> obs_of g' n = obs_of g n)
  /\ (forall o c, o ∈ input -> c ∈ contents o -> c ∈ obs_of g' (entityName o))
  /\ (forall r c, r ∈ out -> c ∈ addedObservations r ->
        c ∉ obs_of g (added_entityName r))
  /\ Forall2 same_but_observations (entities g) (entities g')
  /\ relations g' = relations g.
Proof.
  induction input as [|o input IH]; intros g out g' H; simpl in H.
  - simplify_eq. split_and!; try done.
    + intros o c Ho. by apply elem_of_nil in Ho.
    + intros r c Hr. by apply elem_of_nil in Hr.
    + apply Forall_Forall2_diag, Forall_true. by intros x.
  - destruct (add_one g o) as [[r g1]|] eqn:H1; [|done]. simpl in H.
    destruct (add_all g1 input) as [[rs g2]|] eqn:H2; [|done]. simpl in H.
    simplify_eq.
    apply add_one_step in H1 as (Hr & Hgrow & Hother & Hents & Hrels).
    apply IH in H2 as (Hn & Hpre & Hsame & Hall & Hnew & Hents' & Hrels').
    assert (forall n, obs_of g n `prefix_of` obs_of g1 n) as Hpre1.
    { intros n. destruct (decide (n = entityName o)) as [->|Hne].
      - rewrite Hgrow. by apply prefix_app_r.
      - by rewrite Hother. }
    split_and!.
    + rewrite !fmap_cons, Hn. f_equal. by rewrite Hr.
    + intros n. etrans; [apply Hpre1 | apply Hpre].
    + intros n [Hne Hin]%not_elem_of_cons. rewrite Hsame by done. auto.
    + intros o' c [->|Ho']%elem_of_cons Hc; [|by eauto].
      eapply prefix_elem_of; [apply Hpre|]. rewrite Hgrow, elem_of_app.
      destruct (Array_includes (obs_of g (entityName o)) c) eqn:Hi.
      * left. by apply Array_includes_spec.
      * right. rewrite Hr. simpl. apply elem_of_filter. by rewrite Hi.
    + intros r' c [->|Hr']%elem_of_cons Hc.
      * rewrite Hr in Hc |- *. simpl in *.
        apply elem_of_filter in Hc as [_ Hc%negb_true_iff].
        by apply Array_includes_false.
      * intros Hin. eapply (Hnew r' c Hr' Hc), prefix_elem_of; [apply Hpre1|done].
    + eapply Forall2_trans; [|exact Hents|exact Hents'].
      apply same_but_observations_trans.
    + congruence.
Qed.

Lemma names_same_but_observations g g' :
  Forall2 same_but_observations (entities g) (entities g') -> names g' = names g.
Proof.
  unfold names. induction 1 as [|e e' es es' (Hn & _) _ IH]; [done|].
  simpl. by f_equal.
Qed.



(** An update whose contents the entity already has changes nothing. *)
Lemma add_one_saturated g o :
  entityName o ∈ names g ->
  (forall c, c ∈ contents o -> c ∈ obs_of g (entityName o)) ->
  add_one g o = Ok (nothing_added o, g).
Proof.
  intros Hin Hsat. unfold add_one.
  destruct (list_find (fun e => name e = entityName o) (entities g))
    as [[i e]|] eqn:Hf.
  - assert (obs_of g (entityName o) = observations e) as Hobs.
    { unfold obs_of, found. by rewrite Hf. }
    rewrite filter_none.
    2:{ apply Forall_forall. intros c Hc. apply negb_false_iff.
        apply Array_includes_spec. rewrite <- Hobs. auto. }
    rewrite app_nil_r.
    apply list_find_Some in Hf as (Hi & _ & _).
    assert (set_observations e (observations e) = e) as -> by (by destruct e).
    rewrite list_insert_id by done. by destruct g.
  - apply found_is_Some in Hin. unfold found in Hin. rewrite Hf in Hin.
    by destruct Hin.
Qed.

Lemma add_all_saturated input : forall g,
  Forall (fun o => entityName o ∈ names g
                   /\ forall c, c ∈ contents o -> c ∈ obs_of g (entityName o))
    input ->
  add_all g input = Ok (nothing_added <$> input, g).
Proof.
  induction input as [|o input IH]; intros g H; [done|].
  apply Forall_cons in H as [[Hin Hsat] H]. simpl.
  rewrite add_one_saturated by done. simpl. by rewrite IH.
Qed.

(** X5: on a file that loads and holds every entity the batch names, running
    [addObservations] a second time with the same batch reports nothing
    added for any update and writes the file the first run wrote. *)
Theorem addObservations_idempotent (d : fs) (g : KnowledgeGraph)
    (input : list Update) :
  fst (loadGraph d) = Ok g ->
  Forall (fun u => entityName u ∈ names g) input ->
  (let* _ := addObservations input in addObservations input) d
  = (Ok (nothing_added <$> input), snd (addObservations input d)).
Proof.
  intros Hl Hin. destruct (add_all_Ok input g Hin) as (out & g' & Hadd).
  destruct (add_all_steps input g out g' Hadd)
    as (Hn & Hpre & Hsame & Hall & Hnew & Hents & Hrels).
  unfold bind at 1. rewrite (addObservations_run d g Hl input out g' Hadd).
  simpl.
  assert (clean g') as Hc
    by eauto using same_but_observations_clean, loadGraph_clean.
  apply (addObservations_run _ g').
  - simpl. rewrite load_saved by auto using clean_no_own_type.
    by rewrite strip_clean.
  - apply add_all_saturated. apply Forall_forall. intros o Ho. split; [|by eauto].
    rewrite (names_same_but_observations g g') by done.
    rewrite Forall_forall in Hin. auto.
Qed.

Lemma addObservations_idempotent_witness :
  let input := [{| entityName := "Alice"; contents := ["runs"; "runs"] |};
                {| entityName := "Bob"; contents := ["reads"] |}] in
  (let* _ := addObservations input in addObservations input) alice_file
  = (Ok (nothing_added <$> input), snd (addObservations input alice_file)).
Proof.
  intros input. apply (addObservations_idempotent alice_file alice_graph input).
  - vm_compute. reflexivity.
  - repeat constructor.
Defined.

(** ** [deleteObservations] *)

Lemma filter_filter {A} (p q : A -> bool) l :
  List.filter p (List.filter q l) = List.filter (fun x => q x && p x) l.
Proof.
  induction l as [|x l IH]; [done|]. simpl.
  destruct (q x); simpl; [destruct (p x)|]; by rewrite ?IH.
Qed.

Lemma deleted_from_spec ds n c :
  deleted_from ds n c = true <->
  exists dl, dl ∈ ds /\ del_entityName dl = n /\ c ∈ del_observations dl.
Proof.
  unfold deleted_from. rewrite existsb_exists. split.
  - intros (dl & Hin%list_elem_of_In & [Hn%String.eqb_eq Hc%Array_includes_spec]%andb_true_iff).
    eauto.
  - intros (dl & Hin%list_elem_of_In & Hn%String.eqb_eq & Hc%Array_includes_spec).
    exists dl. by rewrite Hn, Hc.
Qed.

(** One deletion of the batch. *)
Lemma delete_one_step g dl :
  obs_of (delete_one g dl) (del_entityName dl)
  = List.filter (fun o => negb (Array_includes (del_observations dl) o))
      (obs_of g (del_entityName dl))
  /\ (forall n, n <> del_entityName dl -> obs_of (delete_one g dl) n = obs_of g n)
  /\ Forall2 same_but_observations (entities g) (entities (delete_one g dl))
  /\ relations (delete_one g dl) = relations g.
Proof.
  unfold delete_one.
  destruct (list_find (fun e => name e = del_entityName dl) (entities g))
    as [[i e]|] eqn:Hf.
  - pose proof Hf as (Hi & He & _)%list_find_Some.
    edestruct (found_insert g i e
                 (set_observations e
                    (List.filter
                       (fun o => negb (Array_includes (del_observations dl) o))
                       (observations e))) (del_entityName dl) Hf He)
      as [Hsame Hother].
    assert (obs_of g (del_entityName dl) = observations e) as Hobs.
    { unfold obs_of, found. by rewrite Hf. }
    split_and!.
    + unfold obs_of at 1. rewrite Hsame. simpl. by rewrite Hobs.
    + intros n Hn. unfold obs_of. by rewrite Hother.
    + simpl. rewrite <- (list_insert_id (entities g) i e Hi) at 1.
      apply Forall2_insert; [|done].
      apply Forall_Forall2_diag, Forall_true. by intros x.
    + done.
  - assert (obs_of g (del_entityName dl) = []) as ->.
    { unfold obs_of, found. by rewrite Hf. }
    split_and!; try done.
    apply Forall_Forall2_diag, Forall_true. by intros x.
Qed.

(** The observations an entity keeps: those no deletion of the batch lists
    for it. *)
Lemma delete_all_obs ds : forall g n,
  obs_of (fold_left delete_one ds g) n
  = List.filter (fun c => negb (deleted_from ds n c)) (obs_of g n).
Proof.
  induction ds as [|dl ds IH]; intros g n; simpl.
  - symmetry. apply filter_all, Forall_true. done.
  - rewrite IH. destruct (delete_one_step g dl) as (Hat & Hother & _).
    destruct (decide (n = del_entityName dl)) as [->|Hne].
    + rewrite Hat, filter_filter. apply filter_ext. intros c.
      rewrite String.eqb_refl. simpl. by rewrite negb_orb.
    + rewrite Hother by done. apply filter_ext. intros c.
      rewrite (proj2 (String.eqb_neq _ _)) by done. done.
Qed.

Lemma delete_all_same ds : forall g,
  Forall2 same_but_observations (entities g) (entities (fold_left delete_one ds g)).
Proof.
  induction ds as [|dl ds IH]; intros g; simpl.
  - apply Forall_Forall2_diag, Forall_true. by intros x.
  - destruct (delete_one_step g dl) as (_ & _ & Hents & _).
    eapply Forall2_trans; [|exact Hents|apply IH].
    apply same_but_observations_trans.
Qed.

(** X6: on a file that loads, [deleteObservations] returns for every batch,
    an entity the graph lacks being passed over, and saves a graph that
    reads back as saved, with the same entities but for their observations
    and the same relations.  An entity keeps, in their order, exactly the
    observations that no deletion naming it lists. *)
Theorem deleteObservations_removes (d : fs) (g : KnowledgeGraph)
    (deletions : list Deletion) :
  fst (loadGraph d) = Ok g ->
  exists g',
    deleteObservations deletions d = (Ok tt, Some (graph_lines g'))
    /\ fst (readGraph (Some (graph_lines g'))) = Ok g'
    /\ Forall2 same_but_observations (entities g) (entities g')
    /\ relations g' = relations g
    /\ (forall n, obs_of g' n `sublist_of` obs_of g n)
    /\ (forall n c, c ∈ obs_of g' n <->
          c ∈ obs_of g n
          /\ forall dl, dl ∈ deletions -> del_entityName dl = n ->
                        c ∉ del_observations dl).
Proof.
  intros Hl. exists (fold_left delete_one deletions g).
  pose proof (delete_all_same deletions g) as Hents.
  destruct (delete_all_invariant deletions g) as [_ Hrels].
  split_and!; try done.
  - by apply deleteObservations_run.
  - unfold readGraph, loadGraph. simpl.
    assert (clean (fold_left delete_one deletions g)) as Hc
      by eauto using same_but_observations_clean, loadGraph_clean.
    rewrite load_saved by auto using clean_no_own_type. by rewrite strip_clean.
  - intros n. rewrite delete_all_obs. apply filter_sublist.
  - intros n c. rewrite delete_all_obs, elem_of_filter, negb_true_iff.
    rewrite <- not_true_iff_false, deleted_from_spec.
    split; intros [Hc Hno]; (split; [done|]).
    + intros dl Hin Hn Hdl. apply Hno. eauto.
    + intros (dl & Hin & Hn & Hdl). by apply (Hno dl).
Qed.

Lemma deleteObservations_removes_witness :
  let deletions :=
    [{| del_entityName := "Ghost"; del_observations := ["x"] |};
     {| del_entityName := "Alice"; del_observations := ["likes tea"] |}] in
  exists g',
    deleteObservations deletions alice_file = (Ok tt, Some (graph_lines g'))
    /\ fst (readGraph (Some (graph_lines g'))) = Ok g'
    /\ Forall2 same_but_observations (entities alice_graph) (entities g')
    /\ relations g' = relations alice_graph
    /\ (forall n, obs_of g' n `sublist_of` obs_of alice_graph n)
    /\ (forall n c, c ∈ obs_of g' n <->
          c ∈ obs_of alice_graph n
          /\ forall dl, dl ∈ deletions -> del_entityName dl = n ->
                        c ∉ del_observations dl).
Proof.
  intros deletions.
  apply (deleteObservations_removes alice_file alice_graph deletions).
  vm_compute. reflexivity.
Defined.

(** ** [deleteRelations] *)

Lemma listed_triple_spec input r :
  existsb (fun delRelation => same_triple r delRelation) input = true
  <-> triple r ∈ triple <$> input.
Proof.
  rewrite existsb_exists, list_elem_of_fmap. split.
  - intros (x & Hx%list_elem_of_In & Hn%same_triple_spec). by exists x.
  - intros (x & Hn & Hx%list_elem_of_In). exists x. by rewrite same_triple_spec.
Qed.

Lemma without_relations_clean input g : clean g -> clean (without_relations input g).
Proof. intros [He Hr]. split; simpl; [done|by apply Forall_filter]. Qed.

Lemma saved_clean_loads g :
  clean g -> fst (loadGraph (Some (graph_lines g))) = Ok g.
Proof.
  intros Hc. simpl. rewrite load_saved by auto using clean_no_own_type.
  by rewrite strip_clean.
Qed.

(** X7: on a file that loads, [deleteRelations] returns for every input and
    saves a graph that reads back as saved: the entities as they were, and
    of the relations, in their order, exactly those whose triple is the
    triple of no input relation.  An input none of whose triples is in the
    graph leaves the graph as it was. *)
Theorem deleteRelations_removes (d : fs) (g : KnowledgeGraph)
    (input : list Relation) :
  fst (loadGraph d) = Ok g ->
  exists g',
    deleteRelations input d = (Ok tt, Some (graph_lines g'))
    /\ fst (readGraph (Some (graph_lines g'))) = Ok g'
    /\ entities g' = entities g
    /\ relations g' `sublist_of` relations g
    /\ (forall r, r ∈ relations g' <->
                  r ∈ relations g /\ triple r ∉ triple <$> input)
    /\ ((forall r, r ∈ input -> triple r ∉ triples g) -> g' = g).
Proof.
  intros Hl. exists (without_relations input g). split_and!.
  - by apply deleteRelations_run.
  - apply saved_clean_loads, without_relations_clean. by eapply loadGraph_clean.
  - done.
  - apply filter_sublist.
  - intros r. simpl. rewrite elem_of_filter, negb_true_iff.
    by rewrite <- not_true_iff_false, listed_triple_spec.
  - intros Hno. destruct g as [es rs]. unfold without_relations. simpl. f_equal.
    apply filter_all, Forall_forall. intros r Hr. apply negb_true_iff.
    apply not_true_iff_false. rewrite listed_triple_spec.
    intros (x & Heq & Hx)%list_elem_of_fmap. apply (Hno x Hx).
    rewrite <- Heq. by apply list_elem_of_fmap_2.
Qed.

Lemma deleteRelations_removes_witness :
  exists g',
    deleteRelations [knows; likes] alice_file = (Ok tt, Some (graph_lines g'))
    /\ fst (readGraph (Some (graph_lines g'))) = Ok g'
    /\ entities g' = entities alice_graph
    /\ relations g' `sublist_of` relations alice_graph
    /\ (forall r, r ∈ relations g' <->
                  r ∈ relations alice_graph /\ triple r ∉ triple <$> [knows; likes])
    /\ ((forall r, r ∈ [knows; likes] -> triple r ∉ triples alice_graph) ->
        g' = alice_graph).
Proof.
  apply (deleteRelations_removes alice_file alice_graph [knows; likes]).
  vm_compute. reflexivity.
Defined.

(** X8: on a file that loads, creating relations right after deleting them
    returns every one of them, in input order: after [deleteRelations] none
    of their triples is in the graph. *)
Theorem deleteRelations_then_createRelations (d : fs) (g : KnowledgeGraph)
    (input : list Relation) :
  fst (loadGraph d) = Ok g ->
  fst ((let* _ := deleteRelations input in createRelations input) d) = Ok input.
Proof.
  intros Hl. unfold bind at 1. rewrite (deleteRelations_run d g) by done.
  rewrite (createRelations_run _ (without_relations input g)).
  2:{ apply saved_clean_loads, without_relations_clean. by eapply loadGraph_clean. }
  simpl. f_equal. apply filter_all, Forall_forall. intros r Hr.
  apply negb_true_iff, not_true_iff_false. rewrite known_triple_spec.
  unfold triples. simpl.
  intros (x & Heq & [_ Hx]%elem_of_filter)%list_elem_of_fmap.
  apply negb_true_iff, not_true_iff_false in Hx. apply Hx.
  apply listed_triple_spec. rewrite <- Heq. by apply list_elem_of_fmap_2.
Qed.

Lemma deleteRelations_then_createRelations_witness :
  fst ((let* _ := deleteRelations [knows; likes; knows] in
        createRelations [knows; likes; knows]) alice_file)
  = Ok [knows; likes; knows].
Proof.
  apply (deleteRelations_then_createRelations alice_file alice_graph).
  vm_compute. reflexivity.
Defined.

(** ** More on [deleteEntities] *)

Lemma without_entities_app a b g :
  without_entities b (without_entities a g) = without_entities (a ++ b) g.
Proof.
  unfold without_entities. simpl. rewrite !filter_filter. f_equal.
  - apply filter_ext. intros e. rewrite Array_includes_app. by rewrite negb_orb.
  - apply filter_ext. intros r. rewrite !Array_includes_app.
    destruct (Array_includes a (from r)), (Array_includes a (to r)),
      (Array_includes b (from r)), (Array_includes b (to r)); done.
Qed.

Lemma without_entities_twice a g :
  without_entities a (without_entities a g) = without_entities a g.
Proof.
  rewrite without_entities_app. unfold without_entities. f_equal.
  - apply filter_ext. intros e. rewrite Array_includes_app. by rewrite orb_diag.
  - apply filter_ext. intros r. rewrite !Array_includes_app. by rewrite !orb_diag.
Qed.

(** X9: on a file that loads, deleting the names of one list and then those
    of another writes the file that deleting the names of both lists at once
    writes; deleting the same names again changes nothing; and opening the
    deleted names afterwards returns the empty graph. *)
Theorem deleteEntities_composes (d : fs) (g : KnowledgeGraph) (a b : list string) :
  fst (loadGraph d) = Ok g ->
  (let* _ := deleteEntities a in deleteEntities b) d = deleteEntities (a ++ b) d
  /\ (let* _ := deleteEntities a in deleteEntities a) d = deleteEntities a d
  /\ fst ((let* _ := deleteEntities a in openNodes a) d) = Ok empty_graph.
Proof.
  intros Hl.
  assert (fst (loadGraph (Some (graph_lines (without_entities a g))))
          = Ok (without_entities a g)) as Hl'.
  { apply saved_clean_loads, without_entities_clean. by eapply loadGraph_clean. }
  split_and!.
  - unfold bind. rewrite (deleteEntities_run d g) by done.
    rewrite (deleteEntities_run _ (without_entities a g)) by done.
    rewrite (deleteEntities_run d g) by done. by rewrite without_entities_app.
  - unfold bind. rewrite (deleteEntities_run d g) by done.
    rewrite (deleteEntities_run _ (without_entities a g)) by done.
    by rewrite without_entities_twice.
  - unfold bind at 1. rewrite (deleteEntities_run d g) by done.
    unfold openNodes, bind. rewrite (loadGraph_Ok _ _ Hl'). simpl.
    rewrite filter_filter, filter_none.
    + by rewrite between_nil.
    + apply Forall_true. intros e. by destruct (Array_includes a (name e)).
Qed.

Lemma deleteEntities_composes_witness :
  (let* _ := deleteEntities ["Bob"] in deleteEntities ["Alice"; "Carol"]) alice_file
  = deleteEntities (["Bob"] ++ ["Alice"; "Carol"]) alice_file
  /\ (let* _ := deleteEntities ["Bob"] in deleteEntities ["Bob"]) alice_file
     = deleteEntities ["Bob"] alice_file
  /\ fst ((let* _ := deleteEntities ["Bob"] in openNodes ["Bob"]) alice_file)
     = Ok empty_graph.
Proof.
  apply (deleteEntities_composes alice_file alice_graph).
  vm_compute. reflexivity.
Defined.

(** ** Reading and failing *)

(** X10: the read methods never write: [readGraph], [searchNodes] and
    [openNodes] leave the file as they found it whether they return or
    throw, and on a missing file they return the empty graph without
    creating the file. *)
Theorem reads_leave_file {SC : StringCase} (d : fs) (query : string)
    (ns : list string) :
  snd (readGraph d) = d
  /\ snd (searchNodes query d) = d
  /\ snd (openNodes ns d) = d
  /\ readGraph None = (Ok empty_graph, None)
  /\ searchNodes query None = (Ok empty_graph, None)
  /\ openNodes ns None = (Ok empty_graph, None).
Proof.
  pose proof (loadGraph_fs d) as Hd. split_and!.
  - done.
  - unfold searchNodes, bind. by destruct (loadGraph d) as [[?|?] ?].
  - unfold openNodes, bind. by destruct (loadGraph d) as [[?|?] ?].
  - done.
  - reflexivity.
  - reflexivity.
Qed.

Lemma loadGraph_Throw d e : fst (loadGraph d) = Throw e -> loadGraph d = (Throw e, d).
Proof.
  intros H. pose proof (loadGraph_fs d). destruct (loadGraph d); simpl in *.
  by subst.
Qed.

Lemma run_load_Throw d e m :
  fst (loadGraph d) = Throw e -> run m d = (Throw e, d).
Proof.
  intros Hl%loadGraph_Throw.
  destruct m; simpl; unfold discard, createEntities, createRelations,
    addObservations, deleteEntities, deleteObservations, deleteRelations, bind;
    rewrite ?forEach_parse_entities, ?forEach_parse_relations, Hl; done.
Qed.

(** X11: when the file does not load, every method throws what [loadGraph]
    throws and leaves the file as it was. *)
Theorem load_failure_propagates {SC : StringCase} (d : fs) (e : error) (m : mutation)
    (query : string) (ns : list string) :
  fst (loadGraph d) = Throw e ->
  run m d = (Throw e, d)
  /\ readGraph d = (Throw e, d)
  /\ searchNodes query d = (Throw e, d)
  /\ openNodes ns d = (Throw e, d).
Proof.
  intros Hl. split; [by apply run_load_Throw|].
  apply loadGraph_Throw in Hl. split_and!.
  - done.
  - unfold searchNodes, bind. by rewrite Hl.
  - unfold openNodes, bind. by rewrite Hl.
Qed.

Lemma load_failure_propagates_witness :
  run (DeleteEntities ["Alice"]) (Some [Json (entity_record alice); Malformed])
  = (Throw SyntaxError, Some [Json (entity_record alice); Malformed])
  /\ readGraph (Some [Json (entity_record alice); Malformed])
     = (Throw SyntaxError, Some [Json (entity_record alice); Malformed])
  /\ searchNodes "a" (Some [Json (entity_record alice); Malformed])
     = (Throw SyntaxError, Some [Json (entity_record alice); Malformed])
  /\ openNodes ["Alice"] (Some [Json (entity_record alice); Malformed])
     = (Throw SyntaxError, Some [Json (entity_record alice); Malformed]).
Proof.
  apply (load_failure_propagates
           (Some [Json (entity_record alice); Malformed]) SyntaxError
           (DeleteEntities ["Alice"]) "a" ["Alice"]).
  vm_compute. reflexivity.
Defined.

(** X13: the lines are parsed before anything is validated: when the first
    non-blank line that is not a JSON value other than [null] is not JSON,
    [loadGraph] throws a [SyntaxError], and when it is [null], a
    [TypeError], whatever the records before and after it hold. *)
Theorem loadGraph_first_unreadable_line (pre post : list line) :
  Forall readable (List.filter nonblank pre) ->
  fst (loadGraph (Some (pre ++ Malformed :: post))) = Throw SyntaxError
  /\ fst (loadGraph (Some (pre ++ Json VNull :: post))) = Throw TypeError.
Proof.
  intros Hpre. simpl. unfold load_lines.
  split; rewrite List.filter_app, fold_left_app;
    rewrite (load_fold_readable _ _ Hpre); simpl;
    change (fold_left load_step (List.filter nonblank post) (Throw ?e))
      with (fold_left load_step (List.filter nonblank post) (@Throw RawGraph e));
    by rewrite load_fold_Throw.
Qed.

Lemma loadGraph_first_unreadable_line_witness :
  let invalid := Json (VObj {[ "type" := VStr "entity" ]}) in
  fst (loadGraph (Some ([invalid; Blank] ++ Malformed :: [invalid])))
  = Throw SyntaxError
  /\ fst (loadGraph (Some ([invalid; Blank] ++ Json VNull :: [invalid])))
     = Throw TypeError.
Proof.
  intros invalid.
  apply (loadGraph_first_unreadable_line [invalid; Blank] [invalid]).
  repeat constructor. by exists (VObj {[ "type" := VStr "entity" ]}).
Defined.

(** ** More on [openNodes] and [searchNodes] *)

(** X14: on a file that loads, [openNodes] returns the entities whose name
    is in the list and the relations both of whose endpoints name a returned
    entity, each in the order of the graph.  Only the set of names matters:
    names the graph lacks, repeated names and the order of the list change
    nothing. *)
Theorem openNodes_selects (d : fs) (g : KnowledgeGraph) (ns : list string) :
  fst (loadGraph d) = Ok g ->
  exists res,
    openNodes ns d = (Ok res, d)
    /\ entities res `sublist_of` entities g
    /\ relations res `sublist_of` relations g
    /\ (forall e, e ∈ entities res <-> e ∈ entities g /\ name e ∈ ns)
    /\ (forall r, r ∈ relations res <->
                  r ∈ relations g /\ from r ∈ names res /\ to r ∈ names res)
    /\ (forall ns', (forall n, n ∈ names g -> (n ∈ ns <-> n ∈ ns')) ->
          openNodes ns' d = openNodes ns d).
Proof.
  intros Hl%loadGraph_Ok. eexists. unfold openNodes, bind. rewrite Hl.
  split; [reflexivity|]. simpl. split_and!.
  - apply filter_sublist.
  - apply filter_sublist.
  - intros e. by rewrite elem_of_filter, Array_includes_spec.
  - intros r. apply between_spec.
  - intros ns' Hsame.
    assert (List.filter (fun e => Array_includes ns' (name e)) (entities g)
            = List.filter (fun e => Array_includes ns (name e)) (entities g)) as ->;
      [|done].
    apply filter_ext_in. intros e He%list_elem_of_In.
    apply eq_true_iff_eq. rewrite !Array_includes_spec. symmetry.
    apply Hsame. by apply list_elem_of_fmap_2.
Qed.

Lemma openNodes_selects_witness :
  exists res,
    openNodes ["Bob"; "Carol"; "Bob"] alice_file = (Ok res, alice_file)
    /\ entities res `sublist_of` entities alice_graph
    /\ relations res `sublist_of` relations alice_graph
    /\ (forall e, e ∈ entities res <->
                  e ∈ entities alice_graph /\ name e ∈ ["Bob"; "Carol"; "Bob"])
    /\ (forall r, r ∈ relations res <->
                  r ∈ relations alice_graph
                  /\ from r ∈ names res /\ to r ∈ names res)
    /\ (forall ns',
          (forall n, n ∈ names alice_graph ->
                     (n ∈ ["Bob"; "Carol"; "Bob"] <-> n ∈ ns')) ->
          openNodes ns' alice_file = openNodes ["Bob"; "Carol"; "Bob"] alice_file).
Proof.
  apply (openNodes_selects alice_file alice_graph ["Bob"; "Carol"; "Bob"]).
  vm_compute. reflexivity.
Defined.

Lemma append_assoc (a b c : string) : (a +:+ b) +:+ c = a +:+ (b +:+ c).
Proof.
  induction a as [|x a IH]; [done|].
  change (String x ((a +:+ b) +:+ c) = String x (a +:+ (b +:+ c))).
  by rewrite IH.
Qed.

Lemma occurs_lowered_trans {SC : StringCase} q q' s :
  occurs_lowered q q' -> occurs_lowered q' s -> occurs_lowered q s.
Proof.
  intros (a & b & Hq) (a' & b' & Hs). exists (a' +:+ a), (b +:+ b').
  rewrite Hs, Hq. by rewrite !append_assoc.
Qed.

(** X15: a longer query narrows the search: when the lower-cased [q]
    occurs in the lower-cased [q'], every entity and every relation that
    [searchNodes(q')] returns is returned by [searchNodes(q)] too. *)
Theorem searchNodes_narrows {SC : StringCase} (d : fs) (q q' : string)
    (res res' : KnowledgeGraph) :
  occurs_lowered q q' ->
  fst (searchNodes q d) = Ok res ->
  fst (searchNodes q' d) = Ok res' ->
  (forall e, e ∈ entities res' -> e ∈ entities res)
  /\ (forall r, r ∈ relations res' -> r ∈ relations res).
Proof.
  intros Hq. unfold searchNodes, bind.
  destruct (loadGraph d) as [[g|e] d']; [|done]. simpl.
  intros [= <-] [= <-]. simpl.
  assert (forall e, e ∈ List.filter (matches q') (entities g) ->
                    e ∈ List.filter (matches q) (entities g)) as Hents.
  { intros e [He Hm]%elem_of_filter. apply elem_of_filter. split; [done|].
    apply matches_spec. apply matches_spec in Hm.
    destruct Hm as [H|[H|(o & Ho & H)]]; [left|right; left|right; right; exists o];
      eauto using occurs_lowered_trans. }
  split; [done|].
  intros r (Hr & Hf & Ht)%between_spec. apply between_spec.
  split_and!; [done| |].
  - apply list_elem_of_fmap in Hf as (e & -> & He).
    by apply list_elem_of_fmap_2, Hents.
  - apply list_elem_of_fmap in Ht as (e & -> & He).
    by apply list_elem_of_fmap_2, Hents.
Qed.

Lemma searchNodes_narrows_witness :
  (forall e, e ∈ entities {| entities := [alice]; relations := [] |} ->
             e ∈ entities alice_graph)
  /\ (forall r, r ∈ relations {| entities := [alice]; relations := [] |} ->
                r ∈ relations alice_graph).
Proof.
  apply (searchNodes_narrows alice_file "E" "s TEA").
  - exists "s t", "a". reflexivity.
  - vm_compute. reflexivity.
  - vm_compute. reflexivity.
Defined.

(** ** More on [createRelations] *)

Lemma triples_strip g : triples (strip_graph g) = triples g.
Proof.
  unfold triples, strip_graph. simpl. rewrite <- list_fmap_compose.
  by apply list_fmap_ext.
Qed.

(** X17: on a file that loads, creating relations that have no [type] of
    their own makes each of their triples a triple of the stored graph, whose
    entities stay as they were, and creating the same relations again
    returns the empty list. *)
Theorem createRelations_idempotent (d : fs) (g : KnowledgeGraph)
    (input : list Relation) :
  fst (loadGraph d) = Ok g ->
  Forall (fun r => relation_extra r !! "type" = None) input ->
  (exists h, fst (readGraph (snd (createRelations input d))) = Ok h
             /\ entities h = entities g
             /\ forall r, r ∈ input -> triple r ∈ triples h)
  /\ fst ((let* _ := createRelations input in createRelations input) d) = Ok [].
Proof.
  intros Hl Hin. unfold bind at 1. rewrite (createRelations_run d g) by done.
  set (g1 := {| entities := _; relations := _ |}).
  pose proof (loadGraph_clean d g Hl) as Hc.
  assert (no_own_type g1) as Hg1.
  { destruct (clean_no_own_type g Hc) as [H1 H2].
    split; [done|]. subst g1. simpl. apply Forall_app. split; [done|].
    by apply Forall_filter. }
  assert (forall r, r ∈ input -> triple r ∈ triples (strip_graph g1)) as Htriples.
  { intros r Hr. rewrite triples_strip. unfold triples. subst g1. simpl.
    rewrite fmap_app, elem_of_app.
    destruct (known_triple g r) eqn:Hk.
    - left. by apply known_triple_spec.
    - right. apply list_elem_of_fmap_2, elem_of_filter. by rewrite Hk. }
  assert (fst (loadGraph (Some (graph_lines g1))) = Ok (strip_graph g1)) as Hl1.
  { simpl. by apply load_saved. }
  split.
  - exists (strip_graph g1). split_and!; [done| |done].
    simpl. destruct Hc as [Hce _]. clear -Hce.
    induction Hce as [|e es He _ IH]; [done|]. simpl. f_equal; [|done].
    destruct e; simpl in *. by subst.
  - rewrite (createRelations_run _ (strip_graph g1)) by done. simpl.
    f_equal. apply filter_none, Forall_forall. intros r Hr.
    apply negb_false_iff, known_triple_spec. auto.
Qed.

Lemma createRelations_idempotent_witness :
  (exists h, fst (readGraph (snd (createRelations [likes; likes] alice_file))) = Ok h
             /\ entities h = entities alice_graph
             /\ forall r, r ∈ [likes; likes] -> triple r ∈ triples h)
  /\ fst ((let* _ := createRelations [likes; likes] in
           createRelations [likes; likes]) alice_file) = Ok [].
Proof.
  apply (createRelations_idempotent alice_file alice_graph [likes; likes]).
  - vm_compute. reflexivity.
  - repeat constructor.
Defined.

(** ** The order of the records *)

Lemma push_item_comm e r acc :
  is_entity_item e = true -> is_relation_item r = true ->
  push_item r (push_item e acc) = push_item e (push_item r acc).
Proof.
  intros He Hr. unfold push_item. simpl.
  rewrite He, Hr.
  rewrite (is_str_exclusive _ He : is_relation_item e = false).
  assert (is_entity_item r = false) as ->.
  { unfold is_entity_item, is_relation_item in *.
    destruct (type_of r) as [[]|]; simpl in *; try done.
    apply String.eqb_eq in Hr as ->. done. }
  by rewrite !app_nil_r.
Qed.

(** X18: [loadGraph] does not depend on the entity records coming before the
    relation records, as [saveGraph] writes them: moving an entity record
    across a neighbouring relation record changes neither the graph loaded
    nor the error thrown. *)
Theorem loadGraph_records_interleave (pre post : list line) (e r : value) :
  is_entity_item e = true ->
  is_relation_item r = true ->
  fst (loadGraph (Some (pre ++ Json e :: Json r :: post)))
  = fst (loadGraph (Some (pre ++ Json r :: Json e :: post))).
Proof.
  intros He Hr. simpl. unfold load_lines. f_equal.
  rewrite !List.filter_app. simpl. rewrite !fold_left_app. simpl. f_equal.
  destruct (fold_left load_step (List.filter nonblank pre) (Ok empty_raw))
    as [acc|err]; [|done].
  assert (e <> VNull) as He' by (by intros ->).
  assert (r <> VNull) as Hr' by (by intros ->).
  rewrite !load_step_Json by done. by rewrite push_item_comm.
Qed.

Lemma loadGraph_records_interleave_witness :
  fst (loadGraph (Some ([Blank] ++ Json (entity_record alice)
                                :: Json (relation_record knows) :: [])))
  = fst (loadGraph (Some ([Blank] ++ Json (relation_record knows)
                                  :: Json (entity_record alice) :: []))).
Proof.
  apply (loadGraph_records_interleave [Blank] []
           (entity_record alice) (relation_record knows)).
  - vm_compute. reflexivity.
  - vm_compute. reflexivity.
Defined.

(** ** The invariants of the stored graph *)

Lemma invariant_strip g : invariant (strip_graph g) <-> invariant g.
Proof. unfold invariant. by rewrite names_strip, triples_strip. Qed.

(** A mutation that hands [saveGraph] a graph with unique names and triples
    and no [type] property of an object's own leaves a file that loads to
    such a graph. *)
Lemma saves_unique_intro {A} (m : M A) d r g' :
  m d = (r, Some (graph_lines g')) ->
  invariant g' -> no_own_type g' -> saves_unique m d g'.
Proof.
  intros Hm Hinv Hno. unfold saves_unique. rewrite Hm. simpl.
  split_and!; [done..| |by apply invariant_strip].
  by apply load_saved.
Qed.

(** With such an input the names saved are unique, and the file loads to a
    graph that holds one triple twice. *)
Example createEntities_own_type_triple :
  NoDup (name <$> [disguised "X"])
  /\ fst ((let* _ := createEntities [disguised "X"] in readGraph) alice_file)
     = Ok {| entities := [alice; bob]; relations := [knows; knows] |}.
Proof.
  split; [apply NoDup_singleton|]. vm_compute. reflexivity.
Qed.

(** C4, amended: from a stored graph with unique entity names and unique
    relation triples, the graph that a mutation saves has them too, and so
    has the graph the file then loads to, provided the input of
    [createEntities] names no entity twice, the input of [createRelations]
    holds no triple twice, and no input object has a [type] property of its
    own; the other four mutations keep the invariants for every input. *)
Theorem mutations_preserve_invariants (d : fs) (g : KnowledgeGraph) :
  fst (loadGraph d) = Ok g ->
  invariant g ->
  (forall input,
     NoDup (name <$> input) ->
     Forall (fun e => entity_extra e !! "type" = None) input ->
     saves_unique (createEntities input) d
       {| entities :=
            entities g ++ List.filter (fun e => negb (known_name g e)) input;
          relations := relations g |})
  /\ (forall input,
        NoDup (triple <$> input) ->
        Forall (fun r => relation_extra r !! "type" = None) input ->
        saves_unique (createRelations input) d
          {| entities := entities g;
             relations :=
               relations g ++ List.filter (fun r => negb (known_triple g r)) input |})
  /\ (forall input out g', add_all g input = Ok (out, g') ->
        saves_unique (addObservations input) d g')
  /\ (forall entityNames,
        saves_unique (deleteEntities entityNames) d (without_entities entityNames g))
  /\ (forall deletions,
        saves_unique (deleteObservations deletions) d
          (fold_left delete_one deletions g))
  /\ (forall input,
        saves_unique (deleteRelations input) d (without_relations input g)).
Proof.
  intros Hl Hinv. pose proof (loadGraph_clean d g Hl) as Hc.
  destruct (clean_no_own_type g Hc) as [Hne Hnr]. split_and!.
  - intros input Hin Hty. eapply saves_unique_intro.
    + by apply createEntities_run.
    + by apply createEntities_invariant.
    + split; [|done]. simpl. apply Forall_app. split; [done|].
      by apply Forall_filter.
  - intros input Hin Hty. eapply saves_unique_intro.
    + by apply createRelations_run.
    + by apply createRelations_invariant.
    + split; [done|]. simpl. apply Forall_app. split; [done|].
      by apply Forall_filter.
  - intros input out g' Hadd. eapply saves_unique_intro.
    + by apply (addObservations_run d g Hl input out g').
    + destruct Hinv as [Hn Ht]. pose proof Hadd as [Hn' Hr']%add_all_invariant.
      split; [by rewrite Hn'|]. unfold triples. by rewrite Hr'.
    + apply clean_no_own_type.
      destruct (add_all_steps input g out g' Hadd) as (_&_&_&_&_& Hents & Hrels).
      eauto using same_but_observations_clean.
  - intros ns. eapply saves_unique_intro.
    + by apply deleteEntities_run.
    + destruct Hinv as [Hn Ht]. split; by apply NoDup_fmap_filter.
    + by apply clean_no_own_type, without_entities_clean.
  - intros ds. eapply saves_unique_intro.
    + by apply deleteObservations_run.
    + destruct Hinv as [Hn Ht].
      destruct (delete_all_invariant ds g) as [Hn' Hr'].
      split; [by rewrite Hn'|]. unfold triples. by rewrite Hr'.
    + apply clean_no_own_type.
      destruct (delete_all_invariant ds g) as [_ Hr'].
      eauto using same_but_observations_clean, delete_all_same.
  - intros input. eapply saves_unique_intro.
    + by apply deleteRelations_run.
    + destruct Hinv as [Hn Ht]. split; [done|]. by apply NoDup_fmap_filter.
    + by apply clean_no_own_type, without_relations_clean.
Qed.

Lemma mutations_preserve_invariants_witness :
  (forall input,
     NoDup (name <$> input) ->
     Forall (fun e => entity_extra e !! "type" = None) input ->
     saves_unique (createEntities input) alice_file
       {| entities :=
            entities alice_graph
            ++ List.filter (fun e => negb (known_name alice_graph e)) input;
          relations := relations alice_graph |})
  /\ (forall input,
        NoDup (triple <$> input) ->
        Forall (fun r => relation_extra r !! "type" = None) input ->
        saves_unique (createRelations input) alice_file
          {| entities := entities alice_graph;
             relations :=
               relations alice_graph
               ++ List.filter (fun r => negb (known_triple alice_graph r)) input |})
  /\ (forall input out g', add_all alice_graph input = Ok (out, g') ->
        saves_unique (addObservations input) alice_file g')
  /\ (forall entityNames,
        saves_unique (deleteEntities entityNames) alice_file
          (without_entities entityNames alice_graph))
  /\ (forall deletions,
        saves_unique (deleteObservations deletions) alice_file
          (fold_left delete_one deletions alice_graph))
  /\ (forall input,
        saves_unique (deleteRelations input) alice_file
          (without_relations input alice_graph)).
Proof.
  apply (mutations_preserve_invariants alice_file alice_graph).
  - vm_compute. reflexivity.
  - split; simpl; [|apply NoDup_singleton].
    apply NoDup_cons. split; [|apply NoDup_singleton].
    by intros [=]%list_elem_of_singleton.
Defined.
